(** * prest-client: the chained query builder and its execution

    A shallow embedding of [src/api/prest.ts].  The class [ChainedQuery]
    accumulates query-string clauses and aggregate tokens through fluent
    builder methods; [execute] serialises them into one URL, performs one
    transport call and decodes the response.  [PrestApiClient] resolves
    dotted table and script identifiers and creates the queries.

    Objects live in a store and are addressed by reference, so that a
    builder method really returns the instance it was called on.  Console
    output, network calls and response decoding are recorded in a trace. *)

From Stdlib Require Import String Ascii List ZArith Bool Lia DecimalString.
From stdpp Require Import base list strings.
Import ListNotations.
Local Open Scope string_scope.
Local Open Scope list_scope.

(* ================================================================== *)
(** ** The JavaScript primitives the client relies on *)
(* ================================================================== *)

Module JS.

(** Numbers.  The client only ever prints numbers; integer-valued
    doubles are printed by JavaScript in plain decimal notation (below
    1e21), which is what [Finite] stands for.  [NaN] and the infinities
    are kept because truthiness and [isFinite] tell them apart. *)
Inductive Number :=
| Finite (z : Z)
| NaN
| Infinity (negative : bool).

(** The primitive values a caller can pass where the source says [any]. *)
Inductive Value :=
| VUndefined
| VNull
| VBoolean (b : bool)
| VNumber (n : Number)
| VString (s : string).

Definition Z_to_string (z : Z) : string :=
  NilZero.string_of_int (Z.to_int z).

Definition Number_toString (n : Number) : string :=
  match n with
  | Finite z => Z_to_string z
  | NaN => "NaN"
  | Infinity false => "Infinity"
  | Infinity true => "-Infinity"
  end.

(** [String(v)], the conversion template literals and
    [encodeURIComponent] apply to their argument. *)
Definition ToString (v : Value) : string :=
  match v with
  | VUndefined => "undefined"
  | VNull => "null"
  | VBoolean true => "true"
  | VBoolean false => "false"
  | VNumber n => Number_toString n
  | VString s => s
  end.

(** [ToBoolean]: the falsy values are [undefined], [null], [false],
    [0], [NaN] and the empty string. *)
Definition truthy (v : Value) : bool :=
  match v with
  | VUndefined | VNull => false
  | VBoolean b => b
  | VNumber (Finite z) => negb (Z.eqb z 0)
  | VNumber NaN => false
  | VNumber (Infinity _) => true
  | VString s => negb (String.eqb s "")
  end.

(** [v === 0]. *)
Definition strict_eq_zero (v : Value) : bool :=
  match v with
  | VNumber (Finite z) => Z.eqb z 0
  | _ => false
  end.

(** [isFinite] on a value that is already a number. *)
Definition isFinite (n : Number) : bool :=
  match n with Finite _ => true | _ => false end.

(** *** Percent-encoding

    Strings are sequences of UTF-8 bytes.  [encodeURIComponent] and
    [querystring.escape] keep the same unreserved set
    [A-Z a-z 0-9 - _ . ! ~ * ' ( )] and write every other byte as
    [%XX] with upper-case hexadecimal digits.  The functions of this
    module are what the platform's return when they return; on a
    string that holds a lone surrogate the platform's throw, which
    [URI] and [Platform] below account for. *)
Definition is_unreserved (c : ascii) : bool :=
  let n := N_of_ascii c in
  ((48 <=? n) && (n <=? 57) || (65 <=? n) && (n <=? 90)
   || (97 <=? n) && (n <=? 122)
   || (n =? 33) || (n =? 39) || (n =? 40) || (n =? 41) || (n =? 42)
   || (n =? 45) || (n =? 46) || (n =? 95) || (n =? 126))%N.

Definition hex_digit (n : N) : ascii :=
  match String.get (N.to_nat n) "0123456789ABCDEF" with
  | Some c => c
  | None => "0"%char
  end.

Definition escape_byte (c : ascii) : string :=
  if is_unreserved c then String c ""
  else
    let n := N_of_ascii c in
    String "%" (String (hex_digit (n / 16)) (String (hex_digit (n mod 16)) "")).

Fixpoint percent_encode (s : string) : string :=
  match s with
  | EmptyString => ""
  | String c rest => escape_byte c +:+ percent_encode rest
  end.

Definition encodeURIComponent (v : Value) : string :=
  percent_encode (ToString v).

(** *** Arrays and strings *)

(** [Array.prototype.join]: [undefined] and [null] elements give the
    empty string, every other element its [ToString]. *)
Definition join_element (v : Value) : string :=
  match v with
  | VUndefined | VNull => ""
  | _ => ToString v
  end.

Definition join (sep : string) (values : list Value) : string :=
  String.concat sep (map join_element values).

(** [join] on a [string[]]. *)
Definition join_strings (sep : string) (fields : list string) : string :=
  String.concat sep fields.

(** [s.includes(c)] for a one-character needle. *)
Fixpoint includes (c : ascii) (s : string) : bool :=
  match s with
  | EmptyString => false
  | String d rest => Ascii.eqb d c || includes c rest
  end.

(** [s.split(c)] for a one-character separator: every occurrence of
    the separator cuts, and the result is never empty. *)
Fixpoint split (c : ascii) (s : string) : list string :=
  match s with
  | EmptyString => [""]
  | String d rest =>
      if Ascii.eqb d c then "" :: split c rest
      else
        match split c rest with
        | [] => [String d ""]
        | part :: parts => String d part :: parts
        end
  end.

Definition startsWith (c : ascii) (s : string) : bool :=
  match s with
  | String d _ => Ascii.eqb d c
  | EmptyString => false
  end.

(** *** [querystring.stringify]

    An object literal is the list of its own properties in insertion
    order.  Keys and values are escaped; a value that is neither a
    string, a finite number nor a boolean is written as the empty
    string. *)
Definition stringifyPrimitive (v : Value) : string :=
  match v with
  | VString s => s
  | VNumber n => if isFinite n then Number_toString n else ""
  | VBoolean true => "true"
  | VBoolean false => "false"
  | _ => ""
  end.

Definition stringify (obj : list (string * Value)) : string :=
  String.concat "&"
    (map (fun kv => percent_encode (fst kv) +:+ "=" +:+
                    percent_encode (stringifyPrimitive (snd kv))) obj).

(** Errors are told apart by constructor; all carry a message. *)
Inductive Error :=
| MkError (message : string)
| TypeError (message : string)
| SyntaxError (message : string)
| URIError (message : string).

Definition message (e : Error) : string :=
  match e with
  | MkError m | TypeError m | SyntaxError m | URIError m => m
  end.

End JS.

(* ================================================================== *)
(** ** Transport: requests, responses and observable events *)
(* ================================================================== *)

(** A request body ([any] in the source): [null], or caller data, which
    is identified with the text [JSON.stringify] gives for it. *)
Inductive Body :=
| BodyNull
| BodyData (json : string).

Definition JSON_stringify (b : Body) : string :=
  match b with
  | BodyNull => "null"
  | BodyData json => json
  end.

(** Structured data, as [response.json()] yields it; like a request
    body it is identified with its JSON text. *)
Inductive JsonValue :=
| JsonOf (text : string).

(** What [fetch] is called with: the URL and the init object. *)
Record FetchRequest := {
  url : string;
  method : string;                       (* "GET" when the init omits it *)
  headers : list (string * string);
  payload : option string
}.

(** A response: status, the raw bytes of its body, and the structured
    reading of those bytes when they are valid JSON. *)
Record Response := {
  ok : bool;
  statusText : string;
  bytes : string;
  parsed : option JsonValue
}.

Inductive FetchOutcome :=
| Responds (r : Response)
| Fails (e : JS.Error).

Inductive DecodeKind := AsBlob | AsJson | AsText.

Inductive Event :=
| ConsoleLog (line : string)
| Fetch (req : FetchRequest)
| Decode (k : DecodeKind).

(** What a settled [execute()] promise resolves with. *)
Inductive Decoded :=
| Blob (raw : string)
| Structured (v : JsonValue)
| Text (s : string).

(* ================================================================== *)
(** ** The classes' data *)
(* ================================================================== *)

Record PrestApiClientOptions := {
  base_url : string;
  authHeader : string
}.

(** The object [createClient] builds: five closures over [authHeader]. *)
Record HttpClient := { captured_authHeader : string }.

(** [PrestApiClient]; its private field [client] is [httpClient] here,
    [None] standing for [undefined]. *)
Record PrestApiClient := {
  options : PrestApiClientOptions;
  httpClient : option HttpClient
}.

Inductive ReqType := Get | Post | Put | Delete | Export.
Inductive Renderer := Json | Xml.
Inductive JoinType := Inner | Left | Right | Outer.

(** The private fields of [ChainedQuery].  A client is never mutated
    after its construction, so the query holds it by value. *)
Record ChainedQuery := {
  client : PrestApiClient;
  baseUrl : string;
  reqType : ReqType;
  body : Body;
  rendererArg : Renderer;
  sqlFunctions : list string;
  chainedOperations : list string
}.

(* ================================================================== *)
(** ** The store, the trace and the monad of method calls *)
(* ================================================================== *)

Definition loc := nat.

Record World := {
  heap : list ChainedQuery;              (* the live ChainedQuery objects *)
  trace : list Event;                    (* what has been observed so far *)
  network : FetchRequest -> FetchOutcome (* how the gateway answers *)
}.

Inductive Outcome (A : Type) :=
| Returns (a : A)
| Throws (e : JS.Error).
Arguments Returns {A} a.
Arguments Throws {A} e.

Definition M (A : Type) : Type := World -> Outcome A * World.

#[global] Instance M_ret : MRet M := fun A a w => (Returns a, w).

#[global] Instance M_bind : MBind M := fun A B f m w =>
  match m w with
  | (Returns a, w') => f a w'
  | (Throws e, w') => (Throws e, w')
  end.

Definition throw {A} (e : JS.Error) : M A := fun w => (Throws e, w).

Definition try_catch {A} (m : M A) (handler : JS.Error -> M A) : M A := fun w =>
  match m w with
  | (Returns a, w') => (Returns a, w')
  | (Throws e, w') => handler e w'
  end.

Definition emit (ev : Event) : M unit := fun w =>
  (Returns tt, {| heap := heap w; trace := trace w ++ [ev]; network := network w |}).

Definition deref (l : loc) : M ChainedQuery := fun w =>
  match heap w !! l with
  | Some q => (Returns q, w)
  | None => (Throws (JS.TypeError "dangling reference"), w)
  end.

Definition assign (l : loc) (q : ChainedQuery) : M unit := fun w =>
  (Returns tt, {| heap := <[l := q]> (heap w); trace := trace w; network := network w |}).

Definition alloc (q : ChainedQuery) : M loc := fun w =>
  (Returns (length (heap w)),
   {| heap := heap w ++ [q]; trace := trace w; network := network w |}).

(** One network round trip. *)
Definition fetch (req : FetchRequest) : M Response := fun w =>
  let w' := {| heap := heap w; trace := trace w ++ [Fetch req]; network := network w |} in
  match network w req with
  | Responds r => (Returns r, w')
  | Fails e => (Throws e, w')
  end.

(** [response.blob()], [response.json()], [response.text()] on a body
    that can be read to its end; [Platform.execute] below takes the
    three readers as they come, rejections included. *)
Definition Response_blob (r : Response) : M Decoded :=
  emit (Decode AsBlob);; mret (Blob (bytes r)).

Definition Response_json (r : Response) : M Decoded :=
  emit (Decode AsJson);;
  match parsed r with
  | Some v => mret (Structured v)
  | None => throw (JS.SyntaxError "Unexpected token in JSON")
  end.

Definition Response_text (r : Response) : M Decoded :=
  emit (Decode AsText);; mret (Text (bytes r)).

(* ================================================================== *)
(** ** PrestApiClient: construction and the five transport methods *)
(* ================================================================== *)

(** [createClient]: nothing in its body can throw and nothing is awaited
    before the assignment, so the field is set when the constructor
    returns. *)
Definition createClient (opts : PrestApiClientOptions) : option HttpClient :=
  Some {| captured_authHeader := authHeader opts |}.

Definition new_PrestApiClient (opts : PrestApiClientOptions) : PrestApiClient :=
  {| options := opts; httpClient := createClient opts |}.

(** Every transport method performs one [fetch] and turns a response
    whose [ok] is false into an error carrying its status text. *)
Definition require_ok (failure : string) (response : Response) : M Response :=
  if negb (ok response)
  then throw (JS.MkError (failure +:+ statusText response))
  else mret response.

Definition client_get (c : HttpClient) (u : string) : M Response :=
  response ← fetch {| url := u; method := "GET";
                      headers := [("Authorization", captured_authHeader c)];
                      payload := None |};
  require_ok "Failed to fetch data: " response.

Definition client_export (c : HttpClient) (u : string) (b : Body) : M Response :=
  response ← fetch {| url := u; method := "POST";
                      headers := [("Content-Type", "application/json");
                                  ("Accept", "text/csv");
                                  ("Authorization", captured_authHeader c)];
                      payload := Some (JSON_stringify b) |};
  require_ok "Failed to export data: " response.

Definition client_post (c : HttpClient) (u : string) (b : Body) : M Response :=
  response ← fetch {| url := u; method := "POST";
                      headers := [("Content-Type", "application/json");
                                  ("Authorization", captured_authHeader c)];
                      payload := Some (JSON_stringify b) |};
  require_ok "Failed to insert data: " response.

Definition client_put (c : HttpClient) (u : string) (b : Body) : M Response :=
  response ← fetch {| url := u; method := "PUT";
                      headers := [("Content-Type", "application/json");
                                  ("Authorization", captured_authHeader c)];
                      payload := Some (JSON_stringify b) |};
  require_ok "Failed to update data: " response.

Definition client_delete (c : HttpClient) (u : string) : M Response :=
  response ← fetch {| url := u; method := "DELETE";
                      headers := [("Authorization", captured_authHeader c)];
                      payload := None |};
  require_ok "Failed to delete data: " response.

(** [getHttpClientMethod].  The [default] branch of the source's switch
    cannot be reached with a [ReqType]. *)
Definition getHttpClientMethod (p : PrestApiClient) (m : ReqType)
  : M (string -> Body -> M Response) :=
  match httpClient p with
  | None => throw (JS.MkError "Client not initialized")
  | Some c =>
      match m with
      | Get => mret (fun u _ => client_get c u)
      | Post => mret (client_post c)
      | Put => mret (client_put c)
      | Delete => mret (fun u _ => client_delete c u)
      | Export => mret (client_export c)
      end
  end.

(* ================================================================== *)
(** ** ChainedQuery *)
(* ================================================================== *)

Definition ReqType_eqb (a b : ReqType) : bool :=
  match a, b with
  | Get, Get | Post, Post | Put, Put | Delete, Delete | Export, Export => true
  | _, _ => false
  end.

Definition Renderer_eqb (a b : Renderer) : bool :=
  match a, b with
  | Json, Json | Xml, Xml => true
  | _, _ => false
  end.

Definition Renderer_toString (r : Renderer) : string :=
  match r with Json => "json" | Xml => "xml" end.

Definition JoinType_toString (j : JoinType) : string :=
  match j with
  | Inner => "inner" | Left => "left" | Right => "right" | Outer => "outer"
  end.

(** A string, or [undefined], interpolated into a template literal. *)
Definition interpolate (s : option string) : string :=
  match s with Some x => x | None => "undefined" end.

Module ChainedQuery.

(** [new ChainedQuery(client, baseUrl, reqType, body)]. *)
Definition new (c : PrestApiClient) (base : string) (r : ReqType) (b : Body) : M loc :=
  alloc {| client := c; baseUrl := base; reqType := r; body := b;
           rendererArg := Json; sqlFunctions := []; chainedOperations := [] |}.

(** [this.chainedOperations.push(s)] *)
Definition push_chainedOperations (this : loc) (s : string) : M unit :=
  q ← deref this;
  assign this {| client := client q; baseUrl := baseUrl q; reqType := reqType q;
                 body := body q; rendererArg := rendererArg q;
                 sqlFunctions := sqlFunctions q;
                 chainedOperations := chainedOperations q ++ [s] |}.

(** [this.sqlFunctions.push(s)] *)
Definition push_sqlFunctions (this : loc) (s : string) : M unit :=
  q ← deref this;
  assign this {| client := client q; baseUrl := baseUrl q; reqType := reqType q;
                 body := body q; rendererArg := rendererArg q;
                 sqlFunctions := sqlFunctions q ++ [s];
                 chainedOperations := chainedOperations q |}.

(** [this.rendererArg = r] *)
Definition set_rendererArg (this : loc) (r : Renderer) : M unit :=
  q ← deref this;
  assign this {| client := client q; baseUrl := baseUrl q; reqType := reqType q;
                 body := body q; rendererArg := r;
                 sqlFunctions := sqlFunctions q;
                 chainedOperations := chainedOperations q |}.

Definition page (pageNumber : JS.Number) (this : loc) : M loc :=
  push_chainedOperations this (JS.stringify [("_page", JS.VNumber pageNumber)]);;
  mret this.

Definition pageSize (pageSize : JS.Number) (this : loc) : M loc :=
  push_chainedOperations this (JS.stringify [("_page_size", JS.VNumber pageSize)]);;
  mret this.

Definition select (fields : string) (this : loc) : M loc :=
  push_chainedOperations this (JS.stringify [("_select", JS.VString fields)]);;
  mret this.

Definition count (field : option string) (this : loc) : M loc :=
  let fieldValue :=
    match field with
    | Some f => if JS.truthy (JS.VString f) then f else "*"
    | None => "*"
    end in
  push_chainedOperations this (JS.stringify [("_count", JS.VString fieldValue)]);;
  mret this.

Definition countFirst (countFirst : option bool) (this : loc) : M loc :=
  let countFirst := match countFirst with Some b => b | None => true end in
  push_chainedOperations this (JS.stringify [("_count_first", JS.VBoolean countFirst)]);;
  mret this.

Definition renderer (arg : Renderer) (this : loc) : M loc :=
  push_chainedOperations this
    (JS.stringify [("_renderer", JS.VString (Renderer_toString arg))]);;
  set_rendererArg this arg;;
  mret this.

Definition distinct (distinct : option bool) (this : loc) : M loc :=
  let distinct := match distinct with Some b => b | None => true end in
  push_chainedOperations this (JS.stringify [("_distinct", JS.VBoolean distinct)]);;
  mret this.

Definition order (fields : list string) (this : loc) : M loc :=
  let orderFields :=
    map (fun field => if JS.startsWith "-" field then field else field) fields in
  push_chainedOperations this
    (JS.stringify [("_order", JS.VString (JS.join_strings "," orderFields))]);;
  mret this.

Definition groupBy (fields : list string) (this : loc) : M loc :=
  push_chainedOperations this
    (JS.stringify [("_groupby", JS.VString (JS.join_strings "," fields))]);;
  mret this.

Definition eq (field : string) (value : JS.Value) (this : loc) : M loc :=
  push_chainedOperations this (field +:+ "=" +:+ JS.encodeURIComponent value);;
  mret this.

Definition gt (field : string) (value : JS.Value) (this : loc) : M loc :=
  push_chainedOperations this (field +:+ "=$gt." +:+ JS.encodeURIComponent value);;
  mret this.

Definition gte (field : string) (value : JS.Value) (this : loc) : M loc :=
  push_chainedOperations this (field +:+ "=$gte." +:+ JS.encodeURIComponent value);;
  mret this.

Definition lt (field : string) (value : JS.Value) (this : loc) : M loc :=
  push_chainedOperations this (field +:+ "=$lt." +:+ JS.encodeURIComponent value);;
  mret this.

Definition lte (field : string) (value : JS.Value) (this : loc) : M loc :=
  push_chainedOperations this (field +:+ "=$lte." +:+ JS.encodeURIComponent value);;
  mret this.

Definition ne (field : string) (value : JS.Value) (this : loc) : M loc :=
  push_chainedOperations this (field +:+ "=$ne." +:+ JS.encodeURIComponent value);;
  mret this.

Definition in_ (field : string) (values : list JS.Value) (this : loc) : M loc :=
  push_chainedOperations this (field +:+ "=$in." +:+ JS.join "," values);;
  mret this.

Definition notIn (field : string) (values : list JS.Value) (this : loc) : M loc :=
  push_chainedOperations this (field +:+ "=$nin." +:+ JS.join "," values);;
  mret this.

Definition null (field : string) (this : loc) : M loc :=
  push_chainedOperations this (field +:+ "=$null");;
  mret this.

Definition notNull (field : string) (this : loc) : M loc :=
  push_chainedOperations this (field +:+ "=$notnull");;
  mret this.

Definition like (field value : string) (this : loc) : M loc :=
  push_chainedOperations this
    (field +:+ "=$like." +:+ JS.encodeURIComponent (JS.VString value));;
  mret this.

Definition ilike (field value : string) (this : loc) : M loc :=
  push_chainedOperations this
    (field +:+ "=$ilike." +:+ JS.encodeURIComponent (JS.VString value));;
  mret this.

Definition notLike (field value : string) (this : loc) : M loc :=
  push_chainedOperations this
    (field +:+ "=$notlike." +:+ JS.encodeURIComponent (JS.VString value));;
  mret this.

Definition sum (field : string) (this : loc) : M loc :=
  push_sqlFunctions this ("sum:" +:+ field);; mret this.

Definition avg (field : string) (this : loc) : M loc :=
  push_sqlFunctions this ("avg:" +:+ field);; mret this.

Definition max (field : string) (this : loc) : M loc :=
  push_sqlFunctions this ("max:" +:+ field);; mret this.

Definition min (field : string) (this : loc) : M loc :=
  push_sqlFunctions this ("min:" +:+ field);; mret this.

Definition stdDev (field : string) (this : loc) : M loc :=
  push_sqlFunctions this ("stddev:" +:+ field);; mret this.

Definition variance (field : string) (this : loc) : M loc :=
  push_sqlFunctions this ("variance:" +:+ field);; mret this.

Definition having (groupFunc field condition : string) (value : JS.Value)
    (this : loc) : M loc :=
  let havingClause :=
    "having:" +:+ groupFunc +:+ ":" +:+ field +:+ ":" +:+ condition +:+ ":"
    +:+ JS.encodeURIComponent value in
  push_chainedOperations this havingClause;;
  mret this.

Definition filterRange (field : string) (start end_ : JS.Value) (this : loc) : M loc :=
  (if JS.strict_eq_zero start || JS.truthy start
   then push_chainedOperations this (field +:+ "=$gte." +:+ JS.encodeURIComponent start)
   else mret tt);;
  (if JS.strict_eq_zero end_ || JS.truthy end_
   then push_chainedOperations this (field +:+ "=$lte." +:+ JS.encodeURIComponent end_)
   else mret tt);;
  mret this.

Definition join (joinType : JoinType) (jointable localField operator foreignField : string)
    (this : loc) : M loc :=
  let joinClause :=
    "_join=" +:+ JoinType_toString joinType +:+ ":" +:+ jointable +:+ ":"
    +:+ localField +:+ ":" +:+ operator +:+ ":" +:+ foreignField in
  push_chainedOperations this joinClause;;
  mret this.

Definition jsonbFilter (field jsonField : string) (value : JS.Value) (this : loc) : M loc :=
  let filterClause :=
    field +:+ "->>" +:+ jsonField +:+ ":jsonb=" +:+ JS.encodeURIComponent value in
  push_chainedOperations this filterClause;;
  mret this.

Definition textSearch (field query : string) (language : option string)
    (this : loc) : M loc :=
  let suffix :=
    match language with
    | Some l => if JS.truthy (JS.VString l) then "$" +:+ l else ""
    | None => ""
    end in
  let tsQuery :=
    field +:+ suffix +:+ ":tsquery=" +:+ JS.encodeURIComponent (JS.VString query) in
  push_chainedOperations this tsQuery;;
  mret this.

(** The URL [execute] assembles.  [chainedOperations[i]] is an index
    access interpolated into a template literal; the loop runs over
    the indices [1 .. length - 1]. *)
Definition at_index (ops : list string) (i : nat) : string :=
  interpolate (ops !! i).

Definition chainedUrl (q : ChainedQuery) : string :=
  let ops := chainedOperations q in
  let u := baseUrl q in
  let u :=
    if (0 <? length ops)%nat then
      fold_left (fun acc i => acc +:+ "&" +:+ at_index ops i)
                (seq 1 (length ops - 1))
                (u +:+ "?" +:+ at_index ops 0)
    else u in
  if (0 <? length (sqlFunctions q))%nat
  then u +:+ "&_select=" +:+ JS.join_strings "," (sqlFunctions q)
  else u.

(** [execute].  The three decoders return promises which the [try]
    block returns without awaiting them: their rejection is not seen
    by the [catch] clause.  The block therefore yields the pending
    decoding, which settles after the [try] statement. *)
Definition execute (this : loc) : M Decoded :=
  q ← deref this;
  let u := chainedUrl q in
  pending ← try_catch
    (emit (ConsoleLog u);;
     httpClientMethod ← getHttpClientMethod (client q) (reqType q);
     response ← httpClientMethod u (body q);
     if ReqType_eqb (reqType q) Export then mret (Response_blob response)
     else if Renderer_eqb (rendererArg q) Json then mret (Response_json response)
     else mret (Response_text response))
    (fun error =>
       throw (JS.MkError ("Failed to make API request: " +:+ JS.message error)));
  pending.

End ChainedQuery.

(** A builder-method call with its arguments, for statements about
    arbitrary chains. *)
Inductive BuilderCall :=
| Cpage (pageNumber : JS.Number)
| CpageSize (pageSize : JS.Number)
| Cselect (fields : string)
| Ccount (field : option string)
| CcountFirst (countFirst : option bool)
| Crenderer (arg : Renderer)
| Cdistinct (distinct : option bool)
| Corder (fields : list string)
| CgroupBy (fields : list string)
| Ceq (field : string) (value : JS.Value)
| Cgt (field : string) (value : JS.Value)
| Cgte (field : string) (value : JS.Value)
| Clt (field : string) (value : JS.Value)
| Clte (field : string) (value : JS.Value)
| Cne (field : string) (value : JS.Value)
| Cin (field : string) (values : list JS.Value)
| CnotIn (field : string) (values : list JS.Value)
| Cnull (field : string)
| CnotNull (field : string)
| Clike (field value : string)
| Cilike (field value : string)
| CnotLike (field value : string)
| Csum (field : string)
| Cavg (field : string)
| Cmax (field : string)
| Cmin (field : string)
| CstdDev (field : string)
| Cvariance (field : string)
| Chaving (groupFunc field condition : string) (value : JS.Value)
| CfilterRange (field : string) (start end_ : JS.Value)
| Cjoin (joinType : JoinType) (jointable localField operator foreignField : string)
| CjsonbFilter (field jsonField : string) (value : JS.Value)
| CtextSearch (field query : string) (language : option string).

Definition invoke (c : BuilderCall) : loc -> M loc :=
  match c with
  | Cpage n => ChainedQuery.page n
  | CpageSize n => ChainedQuery.pageSize n
  | Cselect f => ChainedQuery.select f
  | Ccount f => ChainedQuery.count f
  | CcountFirst b => ChainedQuery.countFirst b
  | Crenderer r => ChainedQuery.renderer r
  | Cdistinct b => ChainedQuery.distinct b
  | Corder fs => ChainedQuery.order fs
  | CgroupBy fs => ChainedQuery.groupBy fs
  | Ceq f v => ChainedQuery.eq f v
  | Cgt f v => ChainedQuery.gt f v
  | Cgte f v => ChainedQuery.gte f v
  | Clt f v => ChainedQuery.lt f v
  | Clte f v => ChainedQuery.lte f v
  | Cne f v => ChainedQuery.ne f v
  | Cin f vs => ChainedQuery.in_ f vs
  | CnotIn f vs => ChainedQuery.notIn f vs
  | Cnull f => ChainedQuery.null f
  | CnotNull f => ChainedQuery.notNull f
  | Clike f v => ChainedQuery.like f v
  | Cilike f v => ChainedQuery.ilike f v
  | CnotLike f v => ChainedQuery.notLike f v
  | Csum f => ChainedQuery.sum f
  | Cavg f => ChainedQuery.avg f
  | Cmax f => ChainedQuery.max f
  | Cmin f => ChainedQuery.min f
  | CstdDev f => ChainedQuery.stdDev f
  | Cvariance f => ChainedQuery.variance f
  | Chaving g f c v => ChainedQuery.having g f c v
  | CfilterRange f s e => ChainedQuery.filterRange f s e
  | Cjoin t j l o f => ChainedQuery.join t j l o f
  | CjsonbFilter f j v => ChainedQuery.jsonbFilter f j v
  | CtextSearch f q l => ChainedQuery.textSearch f q l
  end.

(** A fluent chain [q.m1(..).m2(..)...]: each call is made on what the
    previous one returned. *)
Fixpoint chain (calls : list BuilderCall) (this : loc) : M loc :=
  match calls with
  | [] => mret this
  | c :: rest => r ← invoke c this; chain rest r
  end.

(* ================================================================== *)
(** ** PrestApiClient.table and PrestApiClient.query *)
(* ================================================================== *)

(** What the closures returned by [table] and [query] capture. *)
Record Accessor := {
  owner : PrestApiClient;
  schemaName : string;        (* [path] in [query] *)
  tableName : option string   (* [sPath] in [query]; [None] is [undefined] *)
}.

(** [a || b] where [a] is a string or [undefined]. *)
Definition or_else (a : option string) (b : string) : string :=
  match a with
  | Some x => if JS.truthy (JS.VString x) then x else b
  | None => b
  end.

Module PrestApiClient.

Definition table (this : PrestApiClient) (tableName : option string)
  : Outcome Accessor :=
  match httpClient this with
  | None => Throws (JS.MkError "Client not initialized")
  | Some _ =>
      match tableName with
      | None => Throws (JS.MkError "table name is required")
      | Some name =>
          if negb (JS.truthy (JS.VString name))
          then Throws (JS.MkError "table name is required")
          else
            let schemaName := "public" in
            if JS.includes "." name then
              let parts := JS.split "." name in
              Returns {| owner := this;
                         schemaName := or_else (parts !! 0%nat) schemaName;
                         tableName := parts !! 1%nat |}
            else
              Returns {| owner := this; schemaName := schemaName;
                         tableName := Some name |}
      end
  end.

Definition query (this : PrestApiClient) (sPath : option string)
  : Outcome Accessor :=
  match httpClient this with
  | None => Throws (JS.MkError "Client not initialized")
  | Some _ =>
      match sPath with
      | None => Throws (JS.MkError "script name is required")
      | Some name =>
          if negb (JS.truthy (JS.VString name))
          then Throws (JS.MkError "script name is required")
          else
            let path := "" in
            if JS.includes "." name then
              let parts := JS.split "." name in
              Returns {| owner := this;
                         schemaName := or_else (parts !! 0%nat) name;
                         tableName := parts !! 1%nat |}
            else
              Returns {| owner := this; schemaName := path;
                         tableName := Some name |}
      end
  end.

Definition location (a : Accessor) : string :=
  schemaName a +:+ "/" +:+ interpolate (tableName a).

(** The operations of the object [table] returns. *)
Definition list (a : Accessor) : M loc :=
  ChainedQuery.new (owner a)
    (base_url (options (owner a)) +:+ "/" +:+ location a) Get BodyNull.

Definition show (a : Accessor) : M loc :=
  ChainedQuery.new (owner a)
    (base_url (options (owner a)) +:+ "/show/" +:+ location a) Get BodyNull.

Definition export (a : Accessor) (data : Body) : M loc :=
  ChainedQuery.new (owner a)
    (base_url (options (owner a)) +:+ "/export/" +:+ location a) Export data.

Definition insert (a : Accessor) (data : Body) : M loc :=
  ChainedQuery.new (owner a)
    (base_url (options (owner a)) +:+ "/" +:+ location a) Post data.

Definition batchInsert (a : Accessor) (data : Body) : M loc :=
  ChainedQuery.new (owner a)
    (base_url (options (owner a)) +:+ "/batch/" +:+ location a) Post data.

Definition update (a : Accessor) (data : Body) : M loc :=
  ChainedQuery.new (owner a)
    (base_url (options (owner a)) +:+ "/" +:+ location a) Put data.

Definition delete (a : Accessor) : M loc :=
  ChainedQuery.new (owner a)
    (base_url (options (owner a)) +:+ "/" +:+ location a) Delete BodyNull.

(** The operations of the object [query] returns. *)
Definition query_list (a : Accessor) : M loc :=
  ChainedQuery.new (owner a)
    (base_url (options (owner a)) +:+ "/_queries/" +:+ location a) Get BodyNull.

Definition query_export (a : Accessor) (data : Body) : M loc :=
  ChainedQuery.new (owner a)
    (base_url (options (owner a)) +:+ "/_queries/export/" +:+ location a) Export data.

End PrestApiClient.

(** Lifting a synchronous result into a chain of calls. *)
Definition lift {A} (o : Outcome A) : M A := fun w => (o, w).

(* ================================================================== *)
(** ** Vocabulary of the statements *)
(* ================================================================== *)

(** The world after the object at [this] has become [q]. *)
Definition store (this : loc) (q : ChainedQuery) (w : World) : World :=
  {| heap := <[this := q]> (heap w); trace := trace w; network := network w |}.

(** The world after the events [evs] have been observed. *)
Definition observe (evs : list Event) (w : World) : World :=
  {| heap := heap w; trace := trace w ++ evs; network := network w |}.

Definition add_clause (s : string) (q : ChainedQuery) : ChainedQuery :=
  {| client := client q; baseUrl := baseUrl q; reqType := reqType q;
     body := body q; rendererArg := rendererArg q;
     sqlFunctions := sqlFunctions q;
     chainedOperations := chainedOperations q ++ [s] |}.

Definition add_aggregate (s : string) (q : ChainedQuery) : ChainedQuery :=
  {| client := client q; baseUrl := baseUrl q; reqType := reqType q;
     body := body q; rendererArg := rendererArg q;
     sqlFunctions := sqlFunctions q ++ [s];
     chainedOperations := chainedOperations q |}.

Definition with_renderer (r : Renderer) (q : ChainedQuery) : ChainedQuery :=
  {| client := client q; baseUrl := baseUrl q; reqType := reqType q;
     body := body q; rendererArg := r;
     sqlFunctions := sqlFunctions q;
     chainedOperations := chainedOperations q |}.

(** A bound of [filterRange] is present when it is the number 0 or truthy. *)
Definition bound_clause (field op : string) (bound : JS.Value) : list string :=
  if JS.strict_eq_zero bound || JS.truthy bound
  then [field +:+ op +:+ JS.encodeURIComponent bound]
  else [].

(** The clause fragments one builder call contributes, in the order it
    pushes them. *)
Definition clauses_of (c : BuilderCall) : list string :=
  match c with
  | Cpage n => [JS.stringify [("_page", JS.VNumber n)]]
  | CpageSize n => [JS.stringify [("_page_size", JS.VNumber n)]]
  | Cselect f => [JS.stringify [("_select", JS.VString f)]]
  | Ccount (Some f) =>
      [JS.stringify [("_count", JS.VString (if JS.truthy (JS.VString f) then f else "*"))]]
  | Ccount None => [JS.stringify [("_count", JS.VString "*")]]
  | CcountFirst b =>
      [JS.stringify [("_count_first", JS.VBoolean (default true b))]]
  | Crenderer r => [JS.stringify [("_renderer", JS.VString (Renderer_toString r))]]
  | Cdistinct b => [JS.stringify [("_distinct", JS.VBoolean (default true b))]]
  | Corder fs => [JS.stringify [("_order", JS.VString (String.concat "," fs))]]
  | CgroupBy fs => [JS.stringify [("_groupby", JS.VString (String.concat "," fs))]]
  | Ceq f v => [f +:+ "=" +:+ JS.encodeURIComponent v]
  | Cgt f v => [f +:+ "=$gt." +:+ JS.encodeURIComponent v]
  | Cgte f v => [f +:+ "=$gte." +:+ JS.encodeURIComponent v]
  | Clt f v => [f +:+ "=$lt." +:+ JS.encodeURIComponent v]
  | Clte f v => [f +:+ "=$lte." +:+ JS.encodeURIComponent v]
  | Cne f v => [f +:+ "=$ne." +:+ JS.encodeURIComponent v]
  | Cin f vs => [f +:+ "=$in." +:+ JS.join "," vs]
  | CnotIn f vs => [f +:+ "=$nin." +:+ JS.join "," vs]
  | Cnull f => [f +:+ "=$null"]
  | CnotNull f => [f +:+ "=$notnull"]
  | Clike f v => [f +:+ "=$like." +:+ JS.encodeURIComponent (JS.VString v)]
  | Cilike f v => [f +:+ "=$ilike." +:+ JS.encodeURIComponent (JS.VString v)]
  | CnotLike f v => [f +:+ "=$notlike." +:+ JS.encodeURIComponent (JS.VString v)]
  | Csum _ | Cavg _ | Cmax _ | Cmin _ | CstdDev _ | Cvariance _ => []
  | Chaving g f c v =>
      ["having:" +:+ g +:+ ":" +:+ f +:+ ":" +:+ c +:+ ":" +:+ JS.encodeURIComponent v]
  | CfilterRange f s e => bound_clause f "=$gte." s ++ bound_clause f "=$lte." e
  | Cjoin t j l o f =>
      ["_join=" +:+ JoinType_toString t +:+ ":" +:+ j +:+ ":" +:+ l +:+ ":" +:+ o
       +:+ ":" +:+ f]
  | CjsonbFilter f j v => [f +:+ "->>" +:+ j +:+ ":jsonb=" +:+ JS.encodeURIComponent v]
  | CtextSearch f q (Some l) =>
      [f +:+ (if JS.truthy (JS.VString l) then "$" +:+ l else "") +:+ ":tsquery="
       +:+ JS.encodeURIComponent (JS.VString q)]
  | CtextSearch f q None =>
      [f +:+ "" +:+ ":tsquery=" +:+ JS.encodeURIComponent (JS.VString q)]
  end.

(** The aggregate tokens one builder call contributes. *)
Definition aggregates_of (c : BuilderCall) : list string :=
  match c with
  | Csum f => ["sum:" +:+ f]
  | Cavg f => ["avg:" +:+ f]
  | Cmax f => ["max:" +:+ f]
  | Cmin f => ["min:" +:+ f]
  | CstdDev f => ["stddev:" +:+ f]
  | Cvariance f => ["variance:" +:+ f]
  | _ => []
  end.

(** The rendering mode after a builder call. *)
Definition renderer_after (c : BuilderCall) (r : Renderer) : Renderer :=
  match c with
  | Crenderer r' => r'
  | _ => r
  end.

(** The object after a builder call. *)
Definition apply_call (q : ChainedQuery) (c : BuilderCall) : ChainedQuery :=
  {| client := client q; baseUrl := baseUrl q; reqType := reqType q;
     body := body q; rendererArg := renderer_after c (rendererArg q);
     sqlFunctions := sqlFunctions q ++ aggregates_of c;
     chainedOperations := chainedOperations q ++ clauses_of c |}.

(** ["&" + c] for every clause [c], concatenated. *)
Fixpoint amp_all (clauses : list string) : string :=
  match clauses with
  | [] => ""
  | c :: rest => "&" +:+ c +:+ amp_all rest
  end.

(** The query part of the URL: nothing without clauses, otherwise [?]
    and the first clause, then the others each behind an [&]. *)
Definition query_string (clauses : list string) : string :=
  match clauses with
  | [] => ""
  | first :: rest => "?" +:+ first +:+ amp_all rest
  end.

(** The trailing selection directive. *)
Definition select_suffix (aggregates : list string) : string :=
  match aggregates with
  | [] => ""
  | _ :: _ => "&_select=" +:+ String.concat "," aggregates
  end.

(** The URLs of the network calls recorded in a trace, oldest first. *)
Fixpoint requested_urls (t : list Event) : list string :=
  match t with
  | [] => []
  | Fetch req :: rest => url req :: requested_urls rest
  | _ :: rest => requested_urls rest
  end.

(** The decodings recorded in a trace, oldest first. *)
Fixpoint decodings (t : list Event) : list DecodeKind :=
  match t with
  | [] => []
  | Decode k :: rest => k :: decodings rest
  | _ :: rest => decodings rest
  end.

(** Whether [s] starts with [p], and whether [needle] occurs in [s]. *)
Fixpoint has_prefix (p s : string) : bool :=
  match p, s with
  | EmptyString, _ => true
  | String a p', String b s' => Ascii.eqb a b && has_prefix p' s'
  | String _ _, EmptyString => false
  end.

Fixpoint occurs_in (needle s : string) : bool :=
  has_prefix needle s ||
  match s with
  | EmptyString => false
  | String _ s' => occurs_in needle s'
  end.

(** The request a transport method sends for a query. *)
Definition request_of (c : HttpClient) (q : ChainedQuery) : FetchRequest :=
  let auth := ("Authorization", captured_authHeader c) in
  let json := ("Content-Type", "application/json") in
  let u := ChainedQuery.chainedUrl q in
  match reqType q with
  | Get => {| url := u; method := "GET"; headers := [auth]; payload := None |}
  | Delete => {| url := u; method := "DELETE"; headers := [auth]; payload := None |}
  | Post => {| url := u; method := "POST"; headers := [json; auth];
               payload := Some (JSON_stringify (body q)) |}
  | Put => {| url := u; method := "PUT"; headers := [json; auth];
              payload := Some (JSON_stringify (body q)) |}
  | Export => {| url := u; method := "POST";
                 headers := [json; ("Accept", "text/csv"); auth];
                 payload := Some (JSON_stringify (body q)) |}
  end.

(** The text a transport method puts before the status text. *)
Definition failure_text (r : ReqType) : string :=
  match r with
  | Get => "Failed to fetch data: "
  | Export => "Failed to export data: "
  | Post => "Failed to insert data: "
  | Put => "Failed to update data: "
  | Delete => "Failed to delete data: "
  end.

(** The chains of the documentation, run from an empty store. *)
Definition fresh_world (net : FetchRequest -> FetchOutcome) : World :=
  {| heap := []; trace := []; network := net |}.

Definition list_then_execute (opts : PrestApiClientOptions) (name : string)
    (calls : list BuilderCall) : M Decoded :=
  a ← lift (PrestApiClient.table (new_PrestApiClient opts) (Some name));
  q ← PrestApiClient.list a;
  q ← chain calls q;
  ChainedQuery.execute q.

(* ================================================================== *)
(** ** The builders and execute over any behaviour of the platform *)
(* ================================================================== *)

(** [encodeURIComponent] as ECMAScript has it.  A string that holds a
    lone surrogate has no UTF-8 form; it is held in the generalised
    form, the surrogate as the three bytes [ED A0..BF 80..BF], which
    UTF-8 never uses.  On such a string the function throws a
    [URIError]; on every other string it is [JS.encodeURIComponent]. *)
Module URI.

Fixpoint holds_lone_surrogate (s : string) : bool :=
  match s with
  | EmptyString => false
  | String c rest =>
      ((N_of_ascii c =? 237)%N
       && match rest with
          | String d _ => ((160 <=? N_of_ascii d) && (N_of_ascii d <=? 191))%N
          | EmptyString => false
          end)
      || holds_lone_surrogate rest
  end.

Definition encodeURIComponent (v : JS.Value) : Outcome string :=
  if holds_lone_surrogate (JS.ToString v)
  then Throws (JS.URIError "URI malformed")
  else Returns (JS.encodeURIComponent v).

(** [querystring.stringify] throws the same error when a key or a
    written value holds a lone surrogate. *)
Definition stringify (obj : list (string * JS.Value)) : Outcome string :=
  if existsb (fun kv => holds_lone_surrogate (fst kv)
                        || holds_lone_surrogate (JS.stringifyPrimitive (snd kv)))
       obj
  then Throws (JS.URIError "URI malformed")
  else Returns (JS.stringify obj).

(** The string made of the one surrogate U+D800. *)
Definition lone_surrogate : string :=
  String (ascii_of_nat 237) (String (ascii_of_nat 160) (String (ascii_of_nat 128) "")).

End URI.

(** The methods of [ChainedQuery] once more, with the functions they
    import from the platform as parameters: [encodeURIComponent] and
    [querystring.stringify], either of which may throw, and the three
    readers of a response body, each of which may reject.  A template
    literal evaluates its escaped argument before the clause is pushed,
    so that nothing is pushed when the escaping throws.  The methods
    that escape nothing are those of [ChainedQuery]. *)
Module Platform.

Section Library.

Variable encodeURIComponent : JS.Value -> Outcome string.
Variable stringify : list (string * JS.Value) -> Outcome string.
Variables blob json text : Response -> M Decoded.

Definition page (pageNumber : JS.Number) (this : loc) : M loc :=
  clause ← lift (stringify [("_page", JS.VNumber pageNumber)]);
  ChainedQuery.push_chainedOperations this clause;;
  mret this.

Definition pageSize (pageSize : JS.Number) (this : loc) : M loc :=
  clause ← lift (stringify [("_page_size", JS.VNumber pageSize)]);
  ChainedQuery.push_chainedOperations this clause;;
  mret this.

Definition select (fields : string) (this : loc) : M loc :=
  clause ← lift (stringify [("_select", JS.VString fields)]);
  ChainedQuery.push_chainedOperations this clause;;
  mret this.

Definition count (field : option string) (this : loc) : M loc :=
  let fieldValue :=
    match field with
    | Some f => if JS.truthy (JS.VString f) then f else "*"
    | None => "*"
    end in
  clause ← lift (stringify [("_count", JS.VString fieldValue)]);
  ChainedQuery.push_chainedOperations this clause;;
  mret this.

Definition countFirst (countFirst : option bool) (this : loc) : M loc :=
  let countFirst := match countFirst with Some b => b | None => true end in
  clause ← lift (stringify [("_count_first", JS.VBoolean countFirst)]);
  ChainedQuery.push_chainedOperations this clause;;
  mret this.

Definition renderer (arg : Renderer) (this : loc) : M loc :=
  clause ← lift (stringify [("_renderer", JS.VString (Renderer_toString arg))]);
  ChainedQuery.push_chainedOperations this clause;;
  ChainedQuery.set_rendererArg this arg;;
  mret this.

Definition distinct (distinct : option bool) (this : loc) : M loc :=
  let distinct := match distinct with Some b => b | None => true end in
  clause ← lift (stringify [("_distinct", JS.VBoolean distinct)]);
  ChainedQuery.push_chainedOperations this clause;;
  mret this.

Definition order (fields : list string) (this : loc) : M loc :=
  let orderFields :=
    map (fun field => if JS.startsWith "-" field then field else field) fields in
  clause ← lift (stringify [("_order", JS.VString (JS.join_strings "," orderFields))]);
  ChainedQuery.push_chainedOperations this clause;;
  mret this.

Definition groupBy (fields : list string) (this : loc) : M loc :=
  clause ← lift (stringify [("_groupby", JS.VString (JS.join_strings "," fields))]);
  ChainedQuery.push_chainedOperations this clause;;
  mret this.

Definition eq (field : string) (value : JS.Value) (this : loc) : M loc :=
  escaped ← lift (encodeURIComponent value);
  ChainedQuery.push_chainedOperations this (field +:+ "=" +:+ escaped);;
  mret this.

Definition gt (field : string) (value : JS.Value) (this : loc) : M loc :=
  escaped ← lift (encodeURIComponent value);
  ChainedQuery.push_chainedOperations this (field +:+ "=$gt." +:+ escaped);;
  mret this.

Definition gte (field : string) (value : JS.Value) (this : loc) : M loc :=
  escaped ← lift (encodeURIComponent value);
  ChainedQuery.push_chainedOperations this (field +:+ "=$gte." +:+ escaped);;
  mret this.

Definition lt (field : string) (value : JS.Value) (this : loc) : M loc :=
  escaped ← lift (encodeURIComponent value);
  ChainedQuery.push_chainedOperations this (field +:+ "=$lt." +:+ escaped);;
  mret this.

Definition lte (field : string) (value : JS.Value) (this : loc) : M loc :=
  escaped ← lift (encodeURIComponent value);
  ChainedQuery.push_chainedOperations this (field +:+ "=$lte." +:+ escaped);;
  mret this.

Definition ne (field : string) (value : JS.Value) (this : loc) : M loc :=
  escaped ← lift (encodeURIComponent value);
  ChainedQuery.push_chainedOperations this (field +:+ "=$ne." +:+ escaped);;
  mret this.

Definition like (field value : string) (this : loc) : M loc :=
  escaped ← lift (encodeURIComponent (JS.VString value));
  ChainedQuery.push_chainedOperations this (field +:+ "=$like." +:+ escaped);;
  mret this.

Definition ilike (field value : string) (this : loc) : M loc :=
  escaped ← lift (encodeURIComponent (JS.VString value));
  ChainedQuery.push_chainedOperations this (field +:+ "=$ilike." +:+ escaped);;
  mret this.

Definition notLike (field value : string) (this : loc) : M loc :=
  escaped ← lift (encodeURIComponent (JS.VString value));
  ChainedQuery.push_chainedOperations this (field +:+ "=$notlike." +:+ escaped);;
  mret this.

Definition having (groupFunc field condition : string) (value : JS.Value)
    (this : loc) : M loc :=
  escaped ← lift (encodeURIComponent value);
  let havingClause :=
    "having:" +:+ groupFunc +:+ ":" +:+ field +:+ ":" +:+ condition +:+ ":"
    +:+ escaped in
  ChainedQuery.push_chainedOperations this havingClause;;
  mret this.

Definition filterRange (field : string) (start end_ : JS.Value) (this : loc) : M loc :=
  (if JS.strict_eq_zero start || JS.truthy start
   then escaped ← lift (encodeURIComponent start);
        ChainedQuery.push_chainedOperations this (field +:+ "=$gte." +:+ escaped)
   else mret tt);;
  (if JS.strict_eq_zero end_ || JS.truthy end_
   then escaped ← lift (encodeURIComponent end_);
        ChainedQuery.push_chainedOperations this (field +:+ "=$lte." +:+ escaped)
   else mret tt);;
  mret this.

Definition jsonbFilter (field jsonField : string) (value : JS.Value) (this : loc) : M loc :=
  escaped ← lift (encodeURIComponent value);
  let filterClause := field +:+ "->>" +:+ jsonField +:+ ":jsonb=" +:+ escaped in
  ChainedQuery.push_chainedOperations this filterClause;;
  mret this.

Definition textSearch (field query : string) (language : option string)
    (this : loc) : M loc :=
  let suffix :=
    match language with
    | Some l => if JS.truthy (JS.VString l) then "$" +:+ l else ""
    | None => ""
    end in
  escaped ← lift (encodeURIComponent (JS.VString query));
  let tsQuery := field +:+ suffix +:+ ":tsquery=" +:+ escaped in
  ChainedQuery.push_chainedOperations this tsQuery;;
  mret this.

Definition invoke (c : BuilderCall) : loc -> M loc :=
  match c with
  | Cpage n => page n
  | CpageSize n => pageSize n
  | Cselect f => select f
  | Ccount f => count f
  | CcountFirst b => countFirst b
  | Crenderer r => renderer r
  | Cdistinct b => distinct b
  | Corder fs => order fs
  | CgroupBy fs => groupBy fs
  | Ceq f v => eq f v
  | Cgt f v => gt f v
  | Cgte f v => gte f v
  | Clt f v => lt f v
  | Clte f v => lte f v
  | Cne f v => ne f v
  | Cin f vs => ChainedQuery.in_ f vs
  | CnotIn f vs => ChainedQuery.notIn f vs
  | Cnull f => ChainedQuery.null f
  | CnotNull f => ChainedQuery.notNull f
  | Clike f v => like f v
  | Cilike f v => ilike f v
  | CnotLike f v => notLike f v
  | Csum f => ChainedQuery.sum f
  | Cavg f => ChainedQuery.avg f
  | Cmax f => ChainedQuery.max f
  | Cmin f => ChainedQuery.min f
  | CstdDev f => ChainedQuery.stdDev f
  | Cvariance f => ChainedQuery.variance f
  | Chaving g f c v => having g f c v
  | CfilterRange f s e => filterRange f s e
  | Cjoin t j l o f => ChainedQuery.join t j l o f
  | CjsonbFilter f j v => jsonbFilter f j v
  | CtextSearch f q l => textSearch f q l
  end.

(** The reader [execute] chooses for a query. *)
Definition reader (q : ChainedQuery) : Response -> M Decoded :=
  if ReqType_eqb (reqType q) Export then blob
  else if Renderer_eqb (rendererArg q) Json then json
  else text.

Definition execute (this : loc) : M Decoded :=
  q ← deref this;
  let u := ChainedQuery.chainedUrl q in
  pending ← try_catch
    (emit (ConsoleLog u);;
     httpClientMethod ← getHttpClientMethod (client q) (reqType q);
     response ← httpClientMethod u (body q);
     if ReqType_eqb (reqType q) Export then mret (blob response)
     else if Renderer_eqb (rendererArg q) Json then mret (json response)
     else mret (text response))
    (fun error =>
       throw (JS.MkError ("Failed to make API request: " +:+ JS.message error)));
  pending.

End Library.

End Platform.

(** The platform on which nothing throws while escaping, which is the
    one of [ChainedQuery], and the platform of ECMAScript's
    [encodeURIComponent]. *)
Definition never_throws {A B} (f : A -> B) : A -> Outcome B :=
  fun a => Returns (f a).

(** Whether an outcome is a return. *)
Definition returned {A} (o : Outcome A) : Prop :=
  exists a, o = Returns a.

(** A bound of [filterRange] is present when it is the number 0 or
    truthy, and absent otherwise. *)
Definition present (bound : JS.Value) : Prop :=
  bound = JS.VNumber (JS.Finite 0) \/ JS.truthy bound = true.

Definition absent (bound : JS.Value) : Prop :=
  bound <> JS.VNumber (JS.Finite 0) /\ JS.truthy bound = false.

(** The object after clauses were appended to its clause list. *)
Definition add_clauses (clauses : list string) (q : ChainedQuery) : ChainedQuery :=
  {| client := client q; baseUrl := baseUrl q; reqType := reqType q;
     body := body q; rendererArg := rendererArg q;
     sqlFunctions := sqlFunctions q;
     chainedOperations := chainedOperations q ++ clauses |}.

(** The object after a builder call that appended clauses and tokens
    and left the rendering mode [r]. *)
Definition grown (added tokens : list string) (r : Renderer) (q : ChainedQuery)
  : ChainedQuery :=
  {| client := client q; baseUrl := baseUrl q; reqType := reqType q;
     body := body q; rendererArg := r;
     sqlFunctions := sqlFunctions q ++ tokens;
     chainedOperations := chainedOperations q ++ added |}.

(** What a builder call leaves behind, whether it returns or throws. *)
Definition settles (encodeURIComponent : JS.Value -> Outcome string)
    (stringify : list (string * JS.Value) -> Outcome string)
    (this : loc) (w : World) (q : ChainedQuery)
    (call : BuilderCall) (result : Outcome loc * World) : Prop :=
  exists outcome added tokens mode,
    result = (outcome, store this (grown added tokens mode q) w)
    /\ ((outcome = Returns this /\ mode = renderer_after call (rendererArg q))
        \/ exists e,
            outcome = Throws e /\ mode = rendererArg q
            /\ ((exists v, encodeURIComponent v = Throws e)
                \/ exists obj, stringify obj = Throws e)).

(** The network calls recorded in a trace, oldest first. *)
Fixpoint requests (t : list Event) : list FetchRequest :=
  match t with
  | [] => []
  | Fetch req :: rest => req :: requests rest
  | _ :: rest => requests rest
  end.

(** A string made of unreserved characters and [%] only. *)
Fixpoint url_safe (s : string) : bool :=
  match s with
  | EmptyString => true
  | String c rest => (JS.is_unreserved c || Ascii.eqb c "%") && url_safe rest
  end.

(** The object [new ChainedQuery(client, baseUrl, reqType, body)] creates. *)
Definition created (c : PrestApiClient) (base : string) (r : ReqType) (b : Body)
  : ChainedQuery :=
  {| client := c; baseUrl := base; reqType := r; body := b;
     rendererArg := Json; sqlFunctions := []; chainedOperations := [] |}.

(** Creating a query, chaining builder calls on it and executing it. *)
Definition run_query (create : M loc) (calls : list BuilderCall) : M Decoded :=
  q ← create; q ← chain calls q; ChainedQuery.execute q.

(** The query part and the selection directive a chain of calls gives a
    new query. *)
Definition url_tail (calls : list BuilderCall) : string :=
  query_string (flat_map clauses_of calls)
  +:+ select_suffix (flat_map aggregates_of calls).

(** The strings a builder call writes into the URL as the caller gave
    them, without escaping: names of fields, functions, operators and
    tables, and the values of [in] and [notIn] as they print.  Every
    other argument goes through [encodeURIComponent] or
    [querystring.stringify]. *)
Definition raw_parts (c : BuilderCall) : list string :=
  match c with
  | Cpage _ | CpageSize _ | Cselect _ | Ccount _ | CcountFirst _ | Crenderer _
  | Cdistinct _ | Corder _ | CgroupBy _ => []
  | Ceq f _ | Cgt f _ | Cgte f _ | Clt f _ | Clte f _ | Cne f _ => [f]
  | Cin f vs | CnotIn f vs => f :: map JS.join_element vs
  | Cnull f | CnotNull f => [f]
  | Clike f _ | Cilike f _ | CnotLike f _ => [f]
  | Csum f | Cavg f | Cmax f | Cmin f | CstdDev f | Cvariance f => [f]
  | Chaving g f c _ => [g; f; c]
  | CfilterRange f _ _ => [f]
  | Cjoin _ j l o f => [j; l; o; f]
  | CjsonbFilter f j _ => [f; j]
  | CtextSearch f _ (Some l) => [f; l]
  | CtextSearch f _ None => [f]
  end.

(* ================================================================== *)
(** ** The first client, [src/api/client.ts] *)
(* ================================================================== *)

(** [btoa].  A JavaScript string is held here as its UTF-8 bytes;
    [btoa] reads code units.  A code unit below 256 is one byte below
    128 or a two-byte sequence led by [0xC2] or [0xC3]; any other
    string makes [btoa] throw, which is [None]. *)
Module Btoa.

Fixpoint code_units (s : string) : option (list N) :=
  match s with
  | EmptyString => Some []
  | String c rest =>
      let n := N_of_ascii c in
      if (n <? 128)%N then cons n <$> code_units rest
      else if ((n =? 194) || (n =? 195))%N then
        match rest with
        | String t rest' =>
            let m := N_of_ascii t in
            if ((128 <=? m) && (m <? 192))%N
            then cons ((n - 192) * 64 + (m - 128))%N <$> code_units rest'
            else None
        | EmptyString => None
        end
      else None
  end.

Definition digit (n : N) : ascii :=
  match String.get (N.to_nat n)
          "ABCDEFGHIJKLMNOPQRSTUVWXYZabcdefghijklmnopqrstuvwxyz0123456789+/" with
  | Some c => c
  | None => "="%char
  end.

(** Base64 with padding, three bytes to four digits. *)
Fixpoint base64 (bytes : list N) : string :=
  match bytes with
  | [] => ""
  | [a] =>
      String (digit (a / 4)) (String (digit (a mod 4 * 16)) "==")
  | [a; b] =>
      String (digit (a / 4))
        (String (digit (a mod 4 * 16 + b / 16))
           (String (digit (b mod 16 * 4)) "="))
  | a :: b :: c :: rest =>
      String (digit (a / 4))
        (String (digit (a mod 4 * 16 + b / 16))
           (String (digit (b mod 16 * 4 + c / 64))
              (String (digit (c mod 64)) (base64 rest))))
  end%N.

Definition btoa (s : string) : option string := base64 <$> code_units s.

End Btoa.

Module Client.

Record PrestApiClientOptions := {
  base_url : string;
  user_name : string;
  password : string;
  database : string
}.

(** The object [createClient] builds: three closures over [authHeader]. *)
Record HttpClient := { captured_authHeader : string }.

Record PrestApiClient := {
  options : PrestApiClientOptions;
  client : option HttpClient
}.

(** [createClient]: when [btoa] throws, the [catch] clause reports the
    error on the console and the field stays [undefined]. *)
Definition createClient (opts : PrestApiClientOptions) : option HttpClient :=
  match Btoa.btoa (user_name opts +:+ ":" +:+ password opts) with
  | Some token => Some {| captured_authHeader := "Basic " +:+ token |}
  | None => None
  end.

Definition new (opts : PrestApiClientOptions) : PrestApiClient :=
  {| options := opts; client := createClient opts |}.

Definition get (c : HttpClient) (u : string) : M Response :=
  response ← fetch {| url := u; method := "GET";
                      headers := [("Authorization", captured_authHeader c)];
                      payload := None |};
  require_ok "Failed to fetch data: " response.

Definition post (c : HttpClient) (u : string) (b : Body) : M Response :=
  response ← fetch {| url := u; method := "POST";
                      headers := [("Content-Type", "application/json");
                                  ("Authorization", captured_authHeader c)];
                      payload := Some (JSON_stringify b) |};
  require_ok "Failed to insert data: " response.

Definition put (c : HttpClient) (u : string) (b : Body) : M Response :=
  response ← fetch {| url := u; method := "PUT";
                      headers := [("Content-Type", "application/json");
                                  ("Authorization", captured_authHeader c)];
                      payload := Some (JSON_stringify b) |};
  require_ok "Failed to update data: " response.

(** What the closures returned by [Table] capture.  They are created
    after the check of [this.client], which nothing resets: the field
    they read is the client [Table] has seen. *)
Record Accessor := {
  owner : PrestApiClient;
  http : HttpClient;
  schemaName : option string;
  tableName : option string
}.

Definition Table (this : PrestApiClient) (tableName : option string)
  : Outcome Accessor :=
  match client this with
  | None => Throws (JS.MkError "Client not initialized")
  | Some c =>
      match tableName with
      | None => Throws (JS.MkError "Table name is required")
      | Some name =>
          if negb (JS.truthy (JS.VString name))
          then Throws (JS.MkError "Table name is required")
          else if JS.includes "." name then
            let parts := JS.split "." name in
            Returns {| owner := this; http := c;
                       schemaName := parts !! 0%nat;
                       tableName := parts !! 1%nat |}
          else
            Returns {| owner := this; http := c;
                       schemaName := Some "public";
                       tableName := Some name |}
      end
  end.

(** [${this.options.base_url}/${this.database}/${schemaName}/${tableName}] *)
Definition location (a : Accessor) : string :=
  database (options (owner a)) +:+ "/" +:+ interpolate (schemaName a)
  +:+ "/" +:+ interpolate (tableName a).

(** The four operations await the decoding inside their [try] block:
    a failure of [response.json()] is caught like one of the request. *)
Definition List (a : Accessor) : M Decoded :=
  try_catch
    (response ← get (http a) (base_url (options (owner a)) +:+ "/" +:+ location a);
     Response_json response)
    (fun error =>
       throw (JS.MkError ("Failed to fetch data from " +:+ interpolate (tableName a)
                          +:+ ": " +:+ JS.message error))).

Definition Show (a : Accessor) : M Decoded :=
  try_catch
    (response ← get (http a)
                  (base_url (options (owner a)) +:+ "/show/" +:+ location a);
     Response_json response)
    (fun error =>
       throw (JS.MkError ("Failed to show data for " +:+ interpolate (tableName a)
                          +:+ ": " +:+ JS.message error))).

Definition Insert (a : Accessor) (data : Body) : M Decoded :=
  try_catch
    (response ← post (http a)
                  (base_url (options (owner a)) +:+ "/" +:+ location a) data;
     Response_json response)
    (fun error =>
       throw (JS.MkError ("Failed to insert data into " +:+ interpolate (tableName a)
                          +:+ ": " +:+ JS.message error))).

Definition Update (a : Accessor) (field : string) (value : JS.Value) (data : Body)
  : M Decoded :=
  try_catch
    (let u := base_url (options (owner a)) +:+ "/" +:+ location a
              +:+ "?" +:+ field +:+ "=" +:+ JS.ToString value in
     response ← put (http a) u data;
     Response_json response)
    (fun error =>
       throw (JS.MkError ("Failed to update data in " +:+ interpolate (tableName a)
                          +:+ ": " +:+ JS.message error))).

End Client.

(** A string of bytes below 128, and the bytes of a string. *)
Fixpoint ascii_only (s : string) : bool :=
  match s with
  | EmptyString => true
  | String c rest => (N_of_ascii c <? 128)%N && ascii_only rest
  end.

Fixpoint bytes_of (s : string) : list N :=
  match s with
  | EmptyString => []
  | String c rest => N_of_ascii c :: bytes_of rest
  end.

(** Sample data for the first client. *)
Definition sample_credentials : Client.PrestApiClientOptions :=
  {| Client.base_url := "http://localhost:3000"; Client.user_name := "user";
     Client.password := "pw"; Client.database := "shop" |}.

(** Sample data for the instances: a client, a gateway that answers
    every request with an empty JSON array, one that answers 404 and one
    that is unreachable. *)
Definition sample_options : PrestApiClientOptions :=
  {| base_url := "http://localhost:3000"; authHeader := "Basic dXNlcjpwdw==" |}.

Definition sample_client : PrestApiClient := new_PrestApiClient sample_options.

Definition sample_query (r : ReqType) (aggregates clauses : list string) : ChainedQuery :=
  {| client := sample_client; baseUrl := "http://localhost:3000/public/products";
     reqType := r; body := BodyNull; rendererArg := Json;
     sqlFunctions := aggregates; chainedOperations := clauses |}.

Definition answers_ok : FetchRequest -> FetchOutcome :=
  fun _ => Responds {| ok := true; statusText := "OK"; bytes := "[]";
                       parsed := Some (JsonOf "[]") |}.

Definition answers_not_found : FetchRequest -> FetchOutcome :=
  fun _ => Responds {| ok := false; statusText := "Not Found"; bytes := "";
                       parsed := None |}.

Definition unreachable : FetchRequest -> FetchOutcome :=
  fun _ => Fails (JS.TypeError "fetch failed").

Definition sample_world (net : FetchRequest -> FetchOutcome) (q : ChainedQuery) : World :=
  {| heap := [q]; trace := []; network := net |}.

(* ================================================================== *)
(** ** Strings *)
(* ================================================================== *)

Section Strings.

Lemma append_cons (a : ascii) (s t : string) :
  String a s +:+ t = String a (s +:+ t).
Proof. reflexivity. Qed.

Lemma append_nil_r (s : string) : s +:+ "" = s.
Proof.
  induction s as [|a s IH]; [reflexivity|].
  rewrite append_cons, IH. reflexivity.
Qed.

Lemma append_assoc (s t u : string) : (s +:+ t) +:+ u = s +:+ (t +:+ u).
Proof.
  induction s as [|a s IH]; [reflexivity|].
  rewrite !append_cons, IH. reflexivity.
Qed.

Lemma includes_append (c : ascii) (s t : string) :
  JS.includes c (s +:+ t) = JS.includes c s || JS.includes c t.
Proof.
  induction s as [|a s IH]; [reflexivity|].
  rewrite append_cons. cbn [JS.includes]. rewrite IH.
  apply orb_assoc.
Qed.

Lemma includes_concat (c : ascii) (sep : string) (parts : list string) :
  JS.includes c sep = false ->
  Forall (fun p => JS.includes c p = false) parts ->
  JS.includes c (String.concat sep parts) = false.
Proof.
  intros Hsep Hparts.
  induction Hparts as [|p parts Hp _ IH]; [reflexivity|].
  destruct parts as [|p' parts]; [exact Hp|].
  change (String.concat sep (p :: p' :: parts))
    with (p +:+ sep +:+ String.concat sep (p' :: parts)).
  rewrite !includes_append, Hp, Hsep, IH. reflexivity.
Qed.

(** Splitting at the first occurrence of the separator. *)
Lemma split_no_separator (c : ascii) (s : string) :
  JS.includes c s = false -> JS.split c s = [s].
Proof.
  induction s as [|a s IH]; [reflexivity|].
  cbn [JS.includes JS.split]. intros H.
  apply orb_false_iff in H as [Ha Hs].
  rewrite Ha, (IH Hs). reflexivity.
Qed.

Lemma split_at_first (c : ascii) (l r : string) :
  JS.includes c l = false ->
  JS.split c (l +:+ String c r) = l :: JS.split c r.
Proof.
  induction l as [|a l IH]; intros H.
  - change ("" +:+ String c r) with (String c r).
    cbn [JS.split]. rewrite Ascii.eqb_refl. reflexivity.
  - cbn [JS.includes] in H. apply orb_false_iff in H as [Ha Hl].
    rewrite append_cons. cbn [JS.split]. rewrite Ha, (IH Hl). reflexivity.
Qed.

Lemma includes_append_separator (c : ascii) (l r : string) :
  JS.includes c (l +:+ String c r) = true.
Proof.
  rewrite includes_append. cbn [JS.includes]. rewrite Ascii.eqb_refl.
  apply orb_true_r.
Qed.

End Strings.

(* ================================================================== *)
(** ** Running method calls *)
(* ================================================================== *)

Section Running.

Lemma bind_run {A B} (m : M A) (f : A -> M B) (w w' : World) (a : A) :
  m w = (Returns a, w') -> (m ≫= f) w = f a w'.
Proof. intros H. unfold mbind, M_bind. rewrite H. reflexivity. Qed.

Lemma lookup_store (this : loc) (q q' : ChainedQuery) (w : World) :
  heap w !! this = Some q -> heap (store this q' w) !! this = Some q'.
Proof.
  intros H. unfold store. cbn [heap].
  apply list_lookup_insert_eq. eapply lookup_lt_Some. exact H.
Qed.

Lemma store_store (this : loc) (q1 q2 : ChainedQuery) (w : World) :
  store this q2 (store this q1 w) = store this q2 w.
Proof. unfold store. cbn [heap trace network]. rewrite list_insert_insert_eq. reflexivity. Qed.

Lemma store_same (this : loc) (q : ChainedQuery) (w : World) :
  heap w !! this = Some q -> store this q w = w.
Proof.
  intros H. destruct w as [h t n]. unfold store. cbn [heap trace network] in *.
  rewrite list_insert_id by exact H. reflexivity.
Qed.

Lemma push_chainedOperations_run (this : loc) (s : string) (w : World) (q : ChainedQuery) :
  heap w !! this = Some q ->
  ChainedQuery.push_chainedOperations this s w = (Returns tt, store this (add_clause s q) w).
Proof.
  intros H. unfold ChainedQuery.push_chainedOperations.
  erewrite bind_run by (unfold deref; rewrite H; reflexivity).
  reflexivity.
Qed.

Lemma push_sqlFunctions_run (this : loc) (s : string) (w : World) (q : ChainedQuery) :
  heap w !! this = Some q ->
  ChainedQuery.push_sqlFunctions this s w = (Returns tt, store this (add_aggregate s q) w).
Proof.
  intros H. unfold ChainedQuery.push_sqlFunctions.
  erewrite bind_run by (unfold deref; rewrite H; reflexivity).
  reflexivity.
Qed.

Lemma set_rendererArg_run (this : loc) (r : Renderer) (w : World) (q : ChainedQuery) :
  heap w !! this = Some q ->
  ChainedQuery.set_rendererArg this r w = (Returns tt, store this (with_renderer r q) w).
Proof.
  intros H. unfold ChainedQuery.set_rendererArg.
  erewrite bind_run by (unfold deref; rewrite H; reflexivity).
  reflexivity.
Qed.

End Running.

(* ================================================================== *)
(** ** What one builder call does *)
(* ================================================================== *)

Section Builders.

Variables (this : loc) (w : World) (q : ChainedQuery).
Hypothesis Hthis : heap w !! this = Some q.

Lemma push_clause_return (s : string) :
  (ChainedQuery.push_chainedOperations this s;; mret this) w
  = (Returns this, store this (add_clause s q) w).
Proof.
  erewrite bind_run by (apply push_chainedOperations_run; exact Hthis).
  reflexivity.
Qed.

Lemma push_aggregate_return (s : string) :
  (ChainedQuery.push_sqlFunctions this s;; mret this) w
  = (Returns this, store this (add_aggregate s q) w).
Proof.
  erewrite bind_run by (apply push_sqlFunctions_run; exact Hthis).
  reflexivity.
Qed.

Lemma add_clause_apply (s : string) (c : BuilderCall) :
  clauses_of c = [s] -> aggregates_of c = [] ->
  renderer_after c (rendererArg q) = rendererArg q ->
  add_clause s q = apply_call q c.
Proof.
  intros Hc Ha Hr. unfold add_clause, apply_call.
  rewrite Hc, Ha, Hr, app_nil_r. reflexivity.
Qed.

Lemma add_aggregate_apply (s : string) (c : BuilderCall) :
  clauses_of c = [] -> aggregates_of c = [s] ->
  renderer_after c (rendererArg q) = rendererArg q ->
  add_aggregate s q = apply_call q c.
Proof.
  intros Hc Ha Hr. unfold add_aggregate, apply_call.
  rewrite Hc, Ha, Hr, app_nil_r. reflexivity.
Qed.

Lemma order_fields_unchanged (fields : list string) :
  map (fun field => if JS.startsWith "-" field then field else field) fields = fields.
Proof.
  induction fields as [|f fields IH]; [reflexivity|].
  cbn [map]. rewrite IH. destruct (JS.startsWith "-" f); reflexivity.
Qed.

Lemma renderer_run (arg : Renderer) :
  ChainedQuery.renderer arg this w
  = (Returns this, store this (apply_call q (Crenderer arg)) w).
Proof.
  unfold ChainedQuery.renderer.
  erewrite bind_run by (apply push_chainedOperations_run; exact Hthis).
  erewrite bind_run
    by (apply set_rendererArg_run; eapply lookup_store; exact Hthis).
  rewrite store_store. unfold apply_call, with_renderer, add_clause.
  cbn [client baseUrl reqType body rendererArg sqlFunctions chainedOperations
       aggregates_of clauses_of renderer_after].
  rewrite app_nil_r. reflexivity.
Qed.

Lemma filterRange_run (field : string) (start end_ : JS.Value) :
  ChainedQuery.filterRange field start end_ this w
  = (Returns this, store this (apply_call q (CfilterRange field start end_)) w).
Proof.
  unfold ChainedQuery.filterRange, apply_call.
  cbn [aggregates_of clauses_of renderer_after]. unfold bound_clause.
  rewrite app_nil_r.
  destruct (JS.strict_eq_zero start || JS.truthy start);
    destruct (JS.strict_eq_zero end_ || JS.truthy end_).
  - erewrite bind_run by (apply push_chainedOperations_run; exact Hthis).
    erewrite bind_run
      by (apply push_chainedOperations_run; eapply lookup_store; exact Hthis).
    rewrite store_store. unfold add_clause.
    cbn [client baseUrl reqType body rendererArg sqlFunctions chainedOperations].
    rewrite <- app_assoc. reflexivity.
  - erewrite bind_run by (apply push_chainedOperations_run; exact Hthis).
    erewrite bind_run by reflexivity.
    reflexivity.
  - erewrite bind_run by reflexivity.
    erewrite bind_run by (apply push_chainedOperations_run; exact Hthis).
    reflexivity.
  - erewrite bind_run by reflexivity.
    erewrite bind_run by reflexivity.
    rewrite app_nil_r.
    rewrite <- (store_same this q w Hthis) at 1.
    unfold mret, M_ret. f_equal. f_equal. destruct q; reflexivity.
Qed.

(** Every builder method returns [this] and leaves behind the object
    [apply_call] describes; the trace and the other objects are as
    before. *)
Lemma invoke_run (c : BuilderCall) :
  invoke c this w = (Returns this, store this (apply_call q c) w).
Proof.
  destruct c; cbn [invoke];
    try (apply renderer_run); try (apply filterRange_run);
    try (match goal with
         | o : option _ |- _ => destruct o
         end);
    first
      [ unfold ChainedQuery.page, ChainedQuery.pageSize, ChainedQuery.select,
          ChainedQuery.count, ChainedQuery.countFirst, ChainedQuery.distinct,
          ChainedQuery.order, ChainedQuery.groupBy, ChainedQuery.eq,
          ChainedQuery.gt, ChainedQuery.gte, ChainedQuery.lt, ChainedQuery.lte,
          ChainedQuery.ne, ChainedQuery.in_, ChainedQuery.notIn,
          ChainedQuery.null, ChainedQuery.notNull, ChainedQuery.like,
          ChainedQuery.ilike, ChainedQuery.notLike, ChainedQuery.having,
          ChainedQuery.join, ChainedQuery.jsonbFilter, ChainedQuery.textSearch;
        cbv zeta; rewrite ?order_fields_unchanged;
        rewrite push_clause_return;
        f_equal; f_equal; apply add_clause_apply; reflexivity
      | unfold ChainedQuery.sum, ChainedQuery.avg, ChainedQuery.max,
          ChainedQuery.min, ChainedQuery.stdDev, ChainedQuery.variance;
        rewrite push_aggregate_return;
        f_equal; f_equal; apply add_aggregate_apply; reflexivity ].
Qed.

End Builders.

(** A chain of calls returns the instance it started from, which has
    then received the calls in order. *)
Lemma chain_run (calls : list BuilderCall) (this : loc) (w : World) (q : ChainedQuery) :
  heap w !! this = Some q ->
  chain calls this w = (Returns this, store this (fold_left apply_call calls q) w).
Proof.
  revert w q. induction calls as [|c calls IH]; intros w q H.
  - cbn [chain fold_left]. rewrite store_same by exact H. reflexivity.
  - cbn [chain fold_left].
    erewrite bind_run by (apply invoke_run; exact H).
    rewrite (IH _ (apply_call q c)) by (eapply lookup_store; exact H).
    rewrite store_store. reflexivity.
Qed.

Section Accumulation.

Lemma fold_clauses (calls : list BuilderCall) (q : ChainedQuery) :
  chainedOperations (fold_left apply_call calls q)
  = chainedOperations q ++ flat_map clauses_of calls.
Proof.
  revert q. induction calls as [|c calls IH]; intros q; cbn [fold_left flat_map].
  - rewrite app_nil_r. reflexivity.
  - rewrite IH. unfold apply_call at 1. cbn [chainedOperations].
    rewrite <- app_assoc. reflexivity.
Qed.

Lemma fold_aggregates (calls : list BuilderCall) (q : ChainedQuery) :
  sqlFunctions (fold_left apply_call calls q)
  = sqlFunctions q ++ flat_map aggregates_of calls.
Proof.
  revert q. induction calls as [|c calls IH]; intros q; cbn [fold_left flat_map].
  - rewrite app_nil_r. reflexivity.
  - rewrite IH. unfold apply_call at 1. cbn [sqlFunctions].
    rewrite <- app_assoc. reflexivity.
Qed.

Lemma fold_fixed (calls : list BuilderCall) (q : ChainedQuery) :
  client (fold_left apply_call calls q) = client q
  /\ baseUrl (fold_left apply_call calls q) = baseUrl q
  /\ reqType (fold_left apply_call calls q) = reqType q
  /\ body (fold_left apply_call calls q) = body q.
Proof.
  revert q. induction calls as [|c calls IH]; intros q; cbn [fold_left].
  - repeat split.
  - destruct (IH (apply_call q c)) as (Hc & Hu & Hr & Hb).
    rewrite Hc, Hu, Hr, Hb. repeat split.
Qed.

End Accumulation.

(* ================================================================== *)
(** ** The URL and the run of execute *)
(* ================================================================== *)

Section Execute.

Lemma loop_appends (pre rest : list string) (acc : string) :
  fold_left (fun acc i => acc +:+ "&" +:+ ChainedQuery.at_index (pre ++ rest) i)
            (seq (length pre) (length rest)) acc
  = acc +:+ amp_all rest.
Proof.
  revert pre acc. induction rest as [|c rest IH]; intros pre acc.
  - cbn [length seq fold_left amp_all]. rewrite append_nil_r. reflexivity.
  - cbn [length seq fold_left amp_all].
    unfold ChainedQuery.at_index at 2.
    rewrite list_lookup_middle by reflexivity. cbn [interpolate].
    replace (pre ++ c :: rest) with ((pre ++ [c]) ++ rest)
      by (rewrite <- app_assoc; reflexivity).
    replace (S (length pre)) with (length (pre ++ [c]))
      by (rewrite length_app; cbn [length]; lia).
    rewrite IH, append_assoc. reflexivity.
Qed.

(** The URL is the base, the query part and the selection directive. *)
Lemma chainedUrl_eq (q : ChainedQuery) :
  ChainedQuery.chainedUrl q
  = baseUrl q +:+ query_string (chainedOperations q)
    +:+ select_suffix (sqlFunctions q).
Proof.
  unfold ChainedQuery.chainedUrl.
  assert (Hquery :
    (if (0 <? length (chainedOperations q))%nat
     then fold_left
            (fun acc i => acc +:+ "&" +:+ ChainedQuery.at_index (chainedOperations q) i)
            (seq 1 (length (chainedOperations q) - 1))
            (baseUrl q +:+ "?" +:+ ChainedQuery.at_index (chainedOperations q) 0)
     else baseUrl q)
    = baseUrl q +:+ query_string (chainedOperations q)).
  { destruct (chainedOperations q) as [|first rest].
    - cbn [length Nat.ltb Nat.leb query_string]. rewrite append_nil_r. reflexivity.
    - replace (length (first :: rest) - 1) with (length rest)
        by (cbn [length]; lia).
      change (0 <? length (first :: rest))%nat with true. cbv iota.
      cbn [query_string].
      change (first :: rest) with ([first] ++ rest).
      change 1%nat with (length [first]) at 1.
      rewrite loop_appends. unfold ChainedQuery.at_index.
      cbn [app lookup list_lookup interpolate].
      rewrite !append_assoc. reflexivity. }
  cbv zeta. rewrite Hquery.
  destruct (sqlFunctions q) as [|a rest].
  - cbn [length Nat.ltb Nat.leb select_suffix]. rewrite !append_nil_r. reflexivity.
  - change (0 <? length (a :: rest))%nat with true. cbv iota.
    unfold select_suffix, JS.join_strings. rewrite !append_assoc. reflexivity.
Qed.

Variables (this : loc) (w : World) (q : ChainedQuery).
Hypothesis Hthis : heap w !! this = Some q.

(** What a settled call of [execute] amounts to, by the answer of the
    network to the one request it sends. *)
Lemma execute_run (c : HttpClient) :
  httpClient (client q) = Some c ->
  ChainedQuery.execute this w =
  let w1 := observe [ConsoleLog (ChainedQuery.chainedUrl q); Fetch (request_of c q)] w in
  match network w (request_of c q) with
  | Fails e =>
      (Throws (JS.MkError ("Failed to make API request: " +:+ JS.message e)), w1)
  | Responds r =>
      if ok r then
        (if ReqType_eqb (reqType q) Export then Response_blob r
         else if Renderer_eqb (rendererArg q) Json then Response_json r
         else Response_text r) w1
      else
        (Throws (JS.MkError ("Failed to make API request: "
                             +:+ failure_text (reqType q) +:+ statusText r)), w1)
  end.
Proof.
  intros Hc. unfold ChainedQuery.execute.
  erewrite bind_run by (unfold deref; rewrite Hthis; reflexivity).
  cbv zeta. unfold getHttpClientMethod. rewrite Hc.
  unfold try_catch, mbind, M_bind, emit, observe, request_of.
  cbn [heap trace network].
  destruct (reqType q); cbn [ReqType_eqb failure_text];
    unfold mret, M_ret, client_get, client_post, client_put, client_delete,
      client_export, fetch, mbind, M_bind, require_ok, throw;
    cbn [heap trace network];
    match goal with
    | |- context [network w ?r] => destruct (network w r) as [r0|e]
    end;
    cbn [JS.message]; rewrite <- ?app_assoc; cbn [app];
    try reflexivity;
    destruct (ok r0); cbn [negb JS.message]; try reflexivity;
    destruct (Renderer_eqb (rendererArg q) Json); reflexivity.
Qed.

Lemma execute_uninitialised :
  httpClient (client q) = None ->
  ChainedQuery.execute this w =
  (Throws (JS.MkError "Failed to make API request: Client not initialized"),
   observe [ConsoleLog (ChainedQuery.chainedUrl q)] w).
Proof.
  intros Hc. unfold ChainedQuery.execute.
  erewrite bind_run by (unfold deref; rewrite Hthis; reflexivity).
  cbv zeta. unfold getHttpClientMethod. rewrite Hc. reflexivity.
Qed.

End Execute.

Section Traces.

Lemma requested_urls_app (t1 t2 : list Event) :
  requested_urls (t1 ++ t2) = requested_urls t1 ++ requested_urls t2.
Proof.
  induction t1 as [|[line|req|k] t1 IH]; cbn [app requested_urls];
    rewrite ?IH; reflexivity.
Qed.

Lemma decodings_app (t1 t2 : list Event) :
  decodings (t1 ++ t2) = decodings t1 ++ decodings t2.
Proof.
  induction t1 as [|[line|req|k] t1 IH]; cbn [app decodings];
    rewrite ?IH; reflexivity.
Qed.

Lemma url_request_of (c : HttpClient) (q : ChainedQuery) :
  url (request_of c q) = ChainedQuery.chainedUrl q.
Proof. unfold request_of. destruct (reqType q); reflexivity. Qed.

(** Decoding a response sends nothing. *)
Lemma decoder_choice_trace (q : ChainedQuery) (r : Response) (w : World) :
  exists k,
    trace (snd ((if ReqType_eqb (reqType q) Export then Response_blob r
                 else if Renderer_eqb (rendererArg q) Json then Response_json r
                 else Response_text r) w))
    = trace w ++ [Decode k]
    /\ k = (if ReqType_eqb (reqType q) Export then AsBlob
            else if Renderer_eqb (rendererArg q) Json then AsJson else AsText).
Proof.
  destruct (ReqType_eqb (reqType q) Export);
    [|destruct (Renderer_eqb (rendererArg q) Json)];
    eexists; (split; [|reflexivity]);
    unfold Response_blob, Response_json, Response_text, mbind, M_bind, emit;
    cbn [fst snd]; try reflexivity.
  destruct (parsed r); reflexivity.
Qed.

(** [execute] on an initialised client sends exactly one request, to
    the URL it assembled. *)
Lemma execute_requests (this : loc) (w : World) (q : ChainedQuery) :
  heap w !! this = Some q -> is_Some (httpClient (client q)) ->
  requested_urls (trace (snd (ChainedQuery.execute this w)))
  = requested_urls (trace w) ++ [ChainedQuery.chainedUrl q].
Proof.
  intros H [c Hc]. rewrite (execute_run this w q H c Hc). cbv zeta.
  destruct (network w (request_of c q)) as [r|e].
  - destruct (ok r).
    + destruct (decoder_choice_trace q r
                  (observe [ConsoleLog (ChainedQuery.chainedUrl q);
                            Fetch (request_of c q)] w)) as (k & -> & _).
      unfold observe. cbn [trace]. rewrite !requested_urls_app.
      cbn [requested_urls]. rewrite url_request_of, app_nil_r. reflexivity.
    + unfold observe. cbn [snd trace]. rewrite requested_urls_app.
      cbn [requested_urls]. rewrite url_request_of. reflexivity.
  - unfold observe. cbn [snd trace]. rewrite requested_urls_app.
    cbn [requested_urls]. rewrite url_request_of. reflexivity.
Qed.

End Traces.

(* ================================================================== *)
(** ** Chains run from a table accessor *)
(* ================================================================== *)

Section Pipelines.

Lemma chain_execute_requests (calls : list BuilderCall) (this : loc) (w : World)
    (q : ChainedQuery) :
  heap w !! this = Some q -> is_Some (httpClient (client q)) ->
  requested_urls (trace (snd ((r ← chain calls this; ChainedQuery.execute r) w)))
  = requested_urls (trace w)
    ++ [baseUrl q +:+ query_string (chainedOperations q ++ flat_map clauses_of calls)
        +:+ select_suffix (sqlFunctions q ++ flat_map aggregates_of calls)].
Proof.
  intros H Hc.
  erewrite bind_run by (apply chain_run; exact H).
  destruct (fold_fixed calls q) as (Hclient & Hbase & _).
  rewrite (execute_requests this _ (fold_left apply_call calls q))
    by (first [eapply lookup_store; exact H | rewrite Hclient; exact Hc]).
  rewrite chainedUrl_eq, fold_clauses, fold_aggregates, Hbase. reflexivity.
Qed.

Lemma list_then_execute_requests (opts : PrestApiClientOptions) (name : string)
    (calls : list BuilderCall) (net : FetchRequest -> FetchOutcome) (a : Accessor) :
  PrestApiClient.table (new_PrestApiClient opts) (Some name) = Returns a ->
  owner a = new_PrestApiClient opts ->
  requested_urls (trace (snd (list_then_execute opts name calls (fresh_world net))))
  = [base_url opts +:+ "/" +:+ PrestApiClient.location a
     +:+ query_string (flat_map clauses_of calls)
     +:+ select_suffix (flat_map aggregates_of calls)].
Proof.
  intros Ha Ho. unfold list_then_execute.
  erewrite bind_run by (unfold lift; rewrite Ha; reflexivity).
  erewrite bind_run by reflexivity.
  cbn [heap fresh_world length app].
  match goal with
  | |- context [(chain calls 0 ≫= ?k) ?w0] =>
      change ((chain calls 0 ≫= k) w0)
        with ((r ← chain calls 0; ChainedQuery.execute r) w0);
      erewrite (chain_execute_requests calls 0 w0) by
        (first [reflexivity | cbn [client]; rewrite Ho; eexists; reflexivity])
  end.
  cbn [trace requested_urls app baseUrl chainedOperations sqlFunctions options].
  rewrite Ho. cbn [options]. rewrite !append_assoc. reflexivity.
Qed.

End Pipelines.

(* ================================================================== *)
(** ** The URL of execute *)
(* ================================================================== *)

(** C1.  When the clause list of a query is not empty, the URL [execute]
    requests is the base URL, then [?] and the first clause, then every
    remaining clause in order, each behind an [&] (and last the
    selection directive, which is empty without aggregates).  In
    particular [table("products").list().page(1).pageSize(10).execute()]
    requests [base_url + "/public/products?_page=1&_page_size=10"]. *)
Theorem execute_url_nonempty :
  (forall (this : loc) (w : World) (q : ChainedQuery) (first : string)
          (rest : list string),
      heap w !! this = Some q -> is_Some (httpClient (client q)) ->
      chainedOperations q = first :: rest ->
      requested_urls (trace (snd (ChainedQuery.execute this w)))
      = requested_urls (trace w)
        ++ [baseUrl q +:+ "?" +:+ first +:+ amp_all rest
            +:+ select_suffix (sqlFunctions q)]
      /\ select_suffix [] = "")
  /\ (forall (opts : PrestApiClientOptions) (net : FetchRequest -> FetchOutcome),
        requested_urls
          (trace (snd (list_then_execute opts "products"
                         [Cpage (JS.Finite 1); CpageSize (JS.Finite 10)]
                         (fresh_world net))))
        = [base_url opts +:+ "/public/products?_page=1&_page_size=10"]).
Proof.
  split.
  - intros this w q first rest H Hc Hops. split; [|reflexivity].
    rewrite (execute_requests this w q H Hc), chainedUrl_eq, Hops.
    cbn [query_string]. rewrite !append_assoc. reflexivity.
  - intros opts net.
    erewrite list_then_execute_requests by reflexivity.
    reflexivity.
Qed.

Lemma execute_url_nonempty_witness :
  requested_urls
    (trace (snd (ChainedQuery.execute 0
                   (sample_world answers_ok
                      (sample_query Get [] ["_page=1"; "_page_size=10"])))))
  = ["http://localhost:3000/public/products?_page=1&_page_size=10"].
Proof.
  refine (proj1 (proj1 execute_url_nonempty 0
                   (sample_world answers_ok
                      (sample_query Get [] ["_page=1"; "_page_size=10"]))
                   (sample_query Get [] ["_page=1"; "_page_size=10"])
                   "_page=1" ["_page_size=10"] _ _ _)).
  - reflexivity.
  - eexists; reflexivity.
  - reflexivity.
Defined.

(** C2.  A chain of builder calls returns the instance it was started
    on, whose clause list is then the earlier clauses followed by the
    fragments of the calls in the order of the calls; [execute] after
    the chain requests the URL that lists the clauses in that order. *)
Theorem clause_order_preserved (calls : list BuilderCall) (this : loc) (w : World)
    (q : ChainedQuery) :
  heap w !! this = Some q ->
  (exists q',
      chain calls this w = (Returns this, store this q' w)
      /\ chainedOperations q' = chainedOperations q ++ flat_map clauses_of calls)
  /\ (is_Some (httpClient (client q)) ->
      requested_urls (trace (snd ((r ← chain calls this; ChainedQuery.execute r) w)))
      = requested_urls (trace w)
        ++ [baseUrl q
            +:+ query_string (chainedOperations q ++ flat_map clauses_of calls)
            +:+ select_suffix (sqlFunctions q ++ flat_map aggregates_of calls)]).
Proof.
  intros H. split.
  - exists (fold_left apply_call calls q). split.
    + apply chain_run. exact H.
    + apply fold_clauses.
  - intros Hc. apply chain_execute_requests; assumption.
Qed.

Lemma clause_order_preserved_witness :
  (exists q',
      chain [Cne "status" (JS.VString "sold out"); Csum "price"; Cpage (JS.Finite 2);
             CfilterRange "price" (JS.VNumber (JS.Finite 0)) JS.VUndefined]
            0 (sample_world answers_ok (sample_query Get [] ["_distinct=true"]))
      = (Returns 0%nat,
         store 0 q' (sample_world answers_ok (sample_query Get [] ["_distinct=true"])))
      /\ chainedOperations q'
         = ["_distinct=true"; "status=$ne.sold%20out"; "_page=2"; "price=$gte.0"])
  /\ requested_urls
       (trace (snd ((r ← chain [Cne "status" (JS.VString "sold out"); Csum "price";
                                Cpage (JS.Finite 2);
                                CfilterRange "price" (JS.VNumber (JS.Finite 0))
                                  JS.VUndefined] 0;
                     ChainedQuery.execute r)
                      (sample_world answers_ok (sample_query Get [] ["_distinct=true"])))))
     = ["http://localhost:3000/public/products?_distinct=true&status=$ne.sold%20out&_page=2&price=$gte.0&_select=sum:price"].
Proof.
  destruct (clause_order_preserved
              [Cne "status" (JS.VString "sold out"); Csum "price"; Cpage (JS.Finite 2);
               CfilterRange "price" (JS.VNumber (JS.Finite 0)) JS.VUndefined]
              0 (sample_world answers_ok (sample_query Get [] ["_distinct=true"]))
              (sample_query Get [] ["_distinct=true"]) eq_refl) as [Hchain Hurl].
  split; [exact Hchain|].
  apply Hurl. eexists; reflexivity.
Defined.

(** C4.  When a query has aggregates, the URL [execute] requests ends
    with one directive [&_select=] followed by the comma-joined tokens,
    behind all clauses; the interleaving of aggregate calls and other
    builder calls does not matter.  [groupBy("category_id")] and
    [sum("category_id")], in either order, give a URL that ends in
    [&_select=sum:category_id]. *)
Theorem aggregates_trailing_select :
  (forall (calls : list BuilderCall) (this : loc) (w : World) (q : ChainedQuery),
      heap w !! this = Some q -> is_Some (httpClient (client q)) ->
      sqlFunctions q ++ flat_map aggregates_of calls <> [] ->
      requested_urls (trace (snd ((r ← chain calls this; ChainedQuery.execute r) w)))
      = requested_urls (trace w)
        ++ [baseUrl q
            +:+ query_string (chainedOperations q ++ flat_map clauses_of calls)
            +:+ "&_select="
            +:+ String.concat "," (sqlFunctions q ++ flat_map aggregates_of calls)])
  /\ (forall (opts : PrestApiClientOptions) (net : FetchRequest -> FetchOutcome),
        requested_urls
          (trace (snd (list_then_execute opts "categories"
                         [CgroupBy ["category_id"]; Csum "category_id"]
                         (fresh_world net))))
        = [(base_url opts +:+ "/public/categories?_groupby=category_id")
           +:+ "&_select=sum:category_id"]
        /\ requested_urls
             (trace (snd (list_then_execute opts "categories"
                            [Csum "category_id"; CgroupBy ["category_id"]]
                            (fresh_world net))))
           = requested_urls
               (trace (snd (list_then_execute opts "categories"
                              [CgroupBy ["category_id"]; Csum "category_id"]
                              (fresh_world net))))).
Proof.
  split.
  - intros calls this w q H Hc Hagg.
    rewrite (chain_execute_requests calls this w q H Hc).
    destruct (sqlFunctions q ++ flat_map aggregates_of calls) as [|a rest];
      [contradiction|].
    reflexivity.
  - intros opts net.
    erewrite !list_then_execute_requests by reflexivity.
    split; [|reflexivity].
    rewrite append_assoc. reflexivity.
Qed.

Lemma aggregates_trailing_select_witness :
  requested_urls
    (trace (snd ((r ← chain [Cavg "price"; Ceq "category_id" (JS.VNumber (JS.Finite 7));
                             Cmax "price"] 0;
                  ChainedQuery.execute r)
                   (sample_world answers_ok (sample_query Get [] [])))))
  = ["http://localhost:3000/public/products?category_id=7&_select=avg:price,max:price"].
Proof.
  refine (proj1 aggregates_trailing_select
            [Cavg "price"; Ceq "category_id" (JS.VNumber (JS.Finite 7)); Cmax "price"]
            0 (sample_world answers_ok (sample_query Get [] []))
            (sample_query Get [] []) eq_refl _ _).
  - eexists; reflexivity.
  - discriminate.
Defined.

(** C10.  When a query has aggregates but no clauses, the URL [execute]
    requests is the base URL immediately followed by [&_select=] and the
    comma-joined tokens: no [?] is put in, so the URL has none unless
    the base URL or a token has one.
    [table("t").list().sum("x").execute()] requests
    [base_url + "/public/t&_select=sum:x"]. *)
Theorem aggregates_without_clauses :
  (forall (this : loc) (w : World) (q : ChainedQuery),
      heap w !! this = Some q -> is_Some (httpClient (client q)) ->
      chainedOperations q = [] -> sqlFunctions q <> [] ->
      requested_urls (trace (snd (ChainedQuery.execute this w)))
      = requested_urls (trace w)
        ++ [baseUrl q +:+ "&_select=" +:+ String.concat "," (sqlFunctions q)]
      /\ (JS.includes "?" (baseUrl q) = false ->
          Forall (fun token => JS.includes "?" token = false) (sqlFunctions q) ->
          JS.includes "?"
            (baseUrl q +:+ "&_select=" +:+ String.concat "," (sqlFunctions q))
          = false))
  /\ (forall (opts : PrestApiClientOptions) (net : FetchRequest -> FetchOutcome),
        requested_urls
          (trace (snd (list_then_execute opts "t" [Csum "x"] (fresh_world net))))
        = [base_url opts +:+ "/public/t&_select=sum:x"]).
Proof.
  split.
  - intros this w q H Hc Hops Hagg. split.
    + rewrite (execute_requests this w q H Hc), chainedUrl_eq, Hops.
      destruct (sqlFunctions q) as [|a rest]; [contradiction|].
      reflexivity.
    + intros Hbase Htokens.
      rewrite !includes_append, Hbase.
      rewrite (includes_concat "?" "," (sqlFunctions q)) by (reflexivity || exact Htokens).
      reflexivity.
  - intros opts net.
    erewrite list_then_execute_requests by reflexivity.
    reflexivity.
Qed.

Lemma aggregates_without_clauses_witness :
  requested_urls
    (trace (snd (ChainedQuery.execute 0
                   (sample_world answers_ok (sample_query Get ["sum:x"; "min:y"] [])))))
  = ["http://localhost:3000/public/products&_select=sum:x,min:y"]
  /\ JS.includes "?" "http://localhost:3000/public/products&_select=sum:x,min:y" = false.
Proof.
  destruct (proj1 aggregates_without_clauses 0
              (sample_world answers_ok (sample_query Get ["sum:x"; "min:y"] []))
              (sample_query Get ["sum:x"; "min:y"] []) eq_refl
              (ex_intro _ _ eq_refl) eq_refl) as [Hurl Hmark].
  - discriminate.
  - split; [exact Hurl|].
    apply Hmark; [reflexivity|].
    repeat constructor.
Defined.

(* ================================================================== *)
(** ** The clause a builder method writes *)
(* ================================================================== *)

(** C5.  [in(field, values)] appends the one clause
    [field + "=$in." + values.join(",")], and [notIn] the same with
    [$nin.]: the values are joined as they print, string values
    verbatim, with no percent-encoding.  The scalar comparisons write
    [encodeURIComponent(value)] instead.  [in("x", [1,2,3])] appends
    [x=$in.1,2,3]. *)
Theorem in_notIn_unencoded :
  (forall (field : string) (values : list JS.Value) (this : loc) (w : World)
          (q : ChainedQuery),
      heap w !! this = Some q ->
      ChainedQuery.in_ field values this w
      = (Returns this,
         store this (add_clause (field +:+ "=$in." +:+ JS.join "," values) q) w)
      /\ ChainedQuery.notIn field values this w
         = (Returns this,
            store this (add_clause (field +:+ "=$nin." +:+ JS.join "," values) q) w)
      /\ forall value : JS.Value,
          ChainedQuery.eq field value this w
          = (Returns this,
             store this
               (add_clause (field +:+ "=" +:+ JS.percent_encode (JS.ToString value)) q) w)
          /\ Forall
               (fun '(method, op) =>
                  method field value this w
                  = (Returns this,
                     store this
                       (add_clause
                          (field +:+ op +:+ JS.percent_encode (JS.ToString value)) q) w))
               [(ChainedQuery.gt, "=$gt."); (ChainedQuery.gte, "=$gte.");
                (ChainedQuery.lt, "=$lt."); (ChainedQuery.lte, "=$lte.");
                (ChainedQuery.ne, "=$ne.")])
  /\ (forall texts : list string,
        JS.join "," (map JS.VString texts) = String.concat "," texts)
  /\ JS.join "," [JS.VNumber (JS.Finite 1); JS.VNumber (JS.Finite 2);
                  JS.VNumber (JS.Finite 3)] = "1,2,3"
  /\ ChainedQuery.in_ "x" [JS.VNumber (JS.Finite 1); JS.VNumber (JS.Finite 2);
                           JS.VNumber (JS.Finite 3)]
       0 (sample_world answers_ok (sample_query Get [] []))
     = (Returns 0%nat, sample_world answers_ok (sample_query Get [] ["x=$in.1,2,3"]))
  /\ ChainedQuery.in_ "x" [JS.VString "a b"; JS.VString "c&d"]
       0 (sample_world answers_ok (sample_query Get [] []))
     = (Returns 0%nat, sample_world answers_ok (sample_query Get [] ["x=$in.a b,c&d"]))
  /\ ChainedQuery.eq "x" (JS.VString "a b")
       0 (sample_world answers_ok (sample_query Get [] []))
     = (Returns 0%nat, sample_world answers_ok (sample_query Get [] ["x=a%20b"])).
Proof.
  split; [|split; [|repeat split]].
  - intros field values this w q H. split; [|split].
    + apply push_clause_return. exact H.
    + apply push_clause_return. exact H.
    + intros value. split; [apply push_clause_return; exact H|].
      repeat constructor; apply push_clause_return; exact H.
  - intros texts. unfold JS.join. f_equal.
    induction texts as [|t texts IH]; [reflexivity|].
    cbn [map JS.join_element JS.ToString]. rewrite IH. reflexivity.
Qed.

Lemma in_notIn_unencoded_witness :
  ChainedQuery.in_ "x" [JS.VNumber (JS.Finite 1); JS.VNumber (JS.Finite 2);
                        JS.VNumber (JS.Finite 3)]
    0 (sample_world answers_ok (sample_query Get [] []))
  = (Returns 0%nat,
     sample_world answers_ok (sample_query Get [] ["x=$in.1,2,3"])).
Proof.
  exact (proj1 (proj1 in_notIn_unencoded "x"
                  [JS.VNumber (JS.Finite 1); JS.VNumber (JS.Finite 2);
                   JS.VNumber (JS.Finite 3)]
                  0 (sample_world answers_ok (sample_query Get [] []))
                  (sample_query Get [] []) eq_refl)).
Defined.

Lemma grown_nothing (q : ChainedQuery) : grown [] [] (rendererArg q) q = q.
Proof. unfold grown. rewrite !app_nil_r. destruct q; reflexivity. Qed.

Lemma add_clauses_nothing (q : ChainedQuery) : add_clauses [] q = q.
Proof. unfold add_clauses. rewrite app_nil_r. destruct q; reflexivity. Qed.

Section PlatformBuilders.

Variable encodeURIComponent : JS.Value -> Outcome string.
Variable stringify : list (string * JS.Value) -> Outcome string.
Variables (this : loc) (w : World) (q : ChainedQuery).
Hypothesis Hthis : heap w !! this = Some q.

Lemma bind_throw {A B} (m : M A) (f : A -> M B) (w0 w' : World) (e : JS.Error) :
  m w0 = (Throws e, w') -> (m ≫= f) w0 = (Throws e, w').
Proof. intros H. unfold mbind, M_bind. rewrite H. reflexivity. Qed.

Lemma present_test (bound : JS.Value) :
  (present bound <-> JS.strict_eq_zero bound || JS.truthy bound = true)
  /\ (absent bound <-> JS.strict_eq_zero bound || JS.truthy bound = false).
Proof.
  unfold present, absent.
  destruct bound as [| |b|[z| |neg]|s]; cbn [JS.strict_eq_zero JS.truthy orb];
    try (split; split; intros; intuition congruence).
  destruct (Z.eqb_spec z 0) as [->|Hz]; cbn [negb orb];
    split; split; intros; intuition congruence.
Qed.

(** A clause with an escaped value: pushed when the escaping returns,
    and nothing is pushed when it throws. *)
Lemma escaped_clause_run (value : JS.Value) (clause : string -> string) :
  (escaped ← lift (encodeURIComponent value);
   ChainedQuery.push_chainedOperations this (clause escaped)) w
  = match encodeURIComponent value with
    | Returns escaped => (Returns tt, store this (add_clause (clause escaped) q) w)
    | Throws e => (Throws e, w)
    end.
Proof.
  unfold lift, mbind, M_bind. destruct (encodeURIComponent value); [|reflexivity].
  apply push_chainedOperations_run. exact Hthis.
Qed.

Lemma escaped_builder_run (value : JS.Value) (clause : string -> string) :
  (escaped ← lift (encodeURIComponent value);
   ChainedQuery.push_chainedOperations this (clause escaped);; mret this) w
  = match encodeURIComponent value with
    | Returns escaped => (Returns this, store this (add_clause (clause escaped) q) w)
    | Throws e => (Throws e, w)
    end.
Proof.
  unfold lift. unfold mbind at 1. unfold M_bind.
  destruct (encodeURIComponent value); [|reflexivity].
  apply push_clause_return. exact Hthis.
Qed.

Lemma directive_builder_run (obj : list (string * JS.Value)) :
  (clause ← lift (stringify obj);
   ChainedQuery.push_chainedOperations this clause;; mret this) w
  = match stringify obj with
    | Returns clause => (Returns this, store this (add_clause clause q) w)
    | Throws e => (Throws e, w)
    end.
Proof.
  unfold lift. unfold mbind at 1. unfold M_bind.
  destruct (stringify obj); [|reflexivity].
  apply push_clause_return. exact Hthis.
Qed.

Lemma platform_renderer_run (arg : Renderer) :
  Platform.renderer stringify arg this w
  = match stringify [("_renderer", JS.VString (Renderer_toString arg))] with
    | Returns clause => (Returns this, store this (grown [clause] [] arg q) w)
    | Throws e => (Throws e, w)
    end.
Proof.
  unfold Platform.renderer, lift. unfold mbind at 1. unfold M_bind.
  destruct (stringify _) as [clause|e]; [|reflexivity].
  erewrite bind_run by (apply push_chainedOperations_run; exact Hthis).
  erewrite bind_run
    by (apply set_rendererArg_run; eapply lookup_store; exact Hthis).
  rewrite store_store. unfold grown, with_renderer, add_clause.
  cbn [client baseUrl reqType body rendererArg sqlFunctions chainedOperations].
  rewrite app_nil_r. reflexivity.
Qed.

End PlatformBuilders.

(** The methods of [ChainedQuery] are those of [Platform] where neither
    escaping function throws. *)
Lemma platform_without_throws (call : BuilderCall) (this : loc) (w : World) :
  Platform.invoke (never_throws JS.encodeURIComponent) (never_throws JS.stringify)
    call this w
  = invoke call this w.
Proof. destruct call; reflexivity. Qed.

Lemma platform_execute_plain (this : loc) (w : World) :
  Platform.execute Response_blob Response_json Response_text this w
  = ChainedQuery.execute this w.
Proof. reflexivity. Qed.

(** C8, as the code has it.  [filterRange] escapes [start] exactly when
    [start] is the number 0 or truthy, and then [end] exactly when [end]
    is the number 0 or truthy; [undefined] is absent and 0 is present.
    A present bound whose escaping returns appends its clause,
    [field=$gte.<escaped start>] and then [field=$lte.<escaped end>],
    an absent bound appends none, and the instance is returned.  When
    [encodeURIComponent] throws on a present bound, [filterRange]
    throws that error: at [start] with nothing appended, at [end] with
    the clause of [start] already appended. *)
Theorem filterRange_bounds (encodeURIComponent : JS.Value -> Outcome string)
    (field : string) (start end_ : JS.Value) (this : loc) (w : World)
    (q : ChainedQuery) :
  heap w !! this = Some q ->
  absent JS.VUndefined /\ present (JS.VNumber (JS.Finite 0))
  /\ (forall bound, present bound \/ absent bound)
  /\ (present start ->
      forall e, encodeURIComponent start = Throws e ->
        Platform.filterRange encodeURIComponent field start end_ this w
        = (Throws e, w))
  /\ forall lower : list string,
      (present start
       /\ exists escaped, encodeURIComponent start = Returns escaped
                          /\ lower = [field +:+ "=$gte." +:+ escaped])
      \/ (absent start /\ lower = []) ->
      (present end_ ->
       forall e, encodeURIComponent end_ = Throws e ->
         Platform.filterRange encodeURIComponent field start end_ this w
         = (Throws e, store this (add_clauses lower q) w))
      /\ forall upper : list string,
          (present end_
           /\ exists escaped, encodeURIComponent end_ = Returns escaped
                              /\ upper = [field +:+ "=$lte." +:+ escaped])
          \/ (absent end_ /\ upper = []) ->
          Platform.filterRange encodeURIComponent field start end_ this w
          = (Returns this, store this (add_clauses (lower ++ upper) q) w).
Proof.
  intros H.
  split; [split; [discriminate|reflexivity]|]. split; [left; reflexivity|].
  split.
  { intros bound.
    destruct (JS.strict_eq_zero bound || JS.truthy bound) eqn:E.
    - left. apply (proj1 (present_test bound)). exact E.
    - right. apply (proj2 (present_test bound)). exact E. }
  unfold Platform.filterRange.
  split.
  - intros Hstart e He. apply (proj1 (present_test start)) in Hstart.
    rewrite Hstart.
    erewrite bind_throw;
      [reflexivity|rewrite (escaped_clause_run _ this w q H), He; reflexivity].
  - intros lower Hlower.
    assert (Hfirst :
      (if JS.strict_eq_zero start || JS.truthy start
       then escaped ← lift (encodeURIComponent start);
            ChainedQuery.push_chainedOperations this (field +:+ "=$gte." +:+ escaped)
       else mret tt) w
      = (Returns tt, store this (add_clauses lower q) w)).
    { destruct Hlower as [[Hp (s & Hs & ->)]|[Ha ->]].
      - apply (proj1 (present_test start)) in Hp. rewrite Hp.
        rewrite (escaped_clause_run _ this w q H), Hs. reflexivity.
      - apply (proj2 (present_test start)) in Ha. rewrite Ha.
        rewrite add_clauses_nothing, (store_same this q w H). reflexivity. }
    erewrite bind_run by exact Hfirst.
    assert (H1 : heap (store this (add_clauses lower q) w) !! this
                 = Some (add_clauses lower q))
      by (eapply lookup_store; exact H).
    split.
    + intros Hend e He. apply (proj1 (present_test end_)) in Hend.
      rewrite Hend.
      erewrite bind_throw;
        [reflexivity|rewrite (escaped_clause_run _ this _ _ H1), He; reflexivity].
    + intros upper Hupper.
      destruct Hupper as [[Hp (t & Ht & ->)]|[Ha ->]].
      * apply (proj1 (present_test end_)) in Hp. rewrite Hp.
        erewrite bind_run
          by (rewrite (escaped_clause_run _ this _ _ H1), Ht; reflexivity).
        rewrite store_store. unfold mret, M_ret, add_clause, add_clauses.
        cbn [client baseUrl reqType body rendererArg sqlFunctions chainedOperations].
        rewrite <- app_assoc. reflexivity.
      * apply (proj2 (present_test end_)) in Ha. rewrite Ha.
        erewrite bind_run by reflexivity.
        rewrite app_nil_r. reflexivity.
Qed.

Lemma filterRange_bounds_witness :
  Platform.filterRange URI.encodeURIComponent "price" (JS.VNumber (JS.Finite 0))
    JS.VUndefined 0 (sample_world answers_ok (sample_query Get [] []))
  = (Returns 0%nat, sample_world answers_ok (sample_query Get [] ["price=$gte.0"])).
Proof.
  refine (proj2 (proj2 (proj2 (proj2 (proj2
            (filterRange_bounds URI.encodeURIComponent "price"
               (JS.VNumber (JS.Finite 0)) JS.VUndefined 0
               (sample_world answers_ok (sample_query Get [] []))
               (sample_query Get [] []) eq_refl))))
            ["price=$gte.0"] _) [] _).
  - left. split; [left; reflexivity|]. eexists. split; reflexivity.
  - right. split; [split; [discriminate|reflexivity]|reflexivity].
Defined.

(** C8 as stated fails: an [end] that holds a lone surrogate is truthy,
    but [filterRange] appends no [$lte] clause for it and does not
    return: it throws the [URIError] of [encodeURIComponent], after the
    [$gte] clause of [start] was appended. *)
Lemma filterRange_stops_at_unencodable_end :
  JS.truthy (JS.VString URI.lone_surrogate) = true
  /\ Platform.filterRange URI.encodeURIComponent "price" (JS.VNumber (JS.Finite 0))
       (JS.VString URI.lone_surrogate) 0
       (sample_world answers_ok (sample_query Get [] []))
     = (Throws (JS.URIError "URI malformed"),
        sample_world answers_ok (sample_query Get [] ["price=$gte.0"])).
Proof. split; reflexivity. Qed.

(* ================================================================== *)
(** ** Decoding and failure *)
(* ================================================================== *)

Section Decoding.

Lemma Renderer_eqb_eq (a b : Renderer) : Renderer_eqb a b = true <-> a = b.
Proof. destruct a, b; cbn [Renderer_eqb]; split; congruence. Qed.

Lemma ReqType_eqb_eq (a b : ReqType) : ReqType_eqb a b = true <-> a = b.
Proof. destruct a, b; cbn [ReqType_eqb]; split; congruence. Qed.

End Decoding.

(** C6.  On an export query [execute] resolves with the raw bytes of
    the response and never decodes as JSON or as text, whatever the
    rendering mode is, also right after [renderer] was called.  On
    every other query it decodes the response as JSON when the
    rendering mode is [json] and as text otherwise. *)
Theorem export_never_decodes (this : loc) (w : World) (q : ChainedQuery)
    (c : HttpClient) :
  heap w !! this = Some q -> httpClient (client q) = Some c ->
  (reqType q = Export ->
     (forall k, In k (decodings (trace (snd (ChainedQuery.execute this w)))) ->
                In k (decodings (trace w)) \/ k = AsBlob)
     /\ (forall r, network w (request_of c q) = Responds r -> ok r = true ->
           fst (ChainedQuery.execute this w) = Returns (Blob (bytes r)))
     /\ (forall arg k,
           In k (decodings
                   (trace (snd ((r ← ChainedQuery.renderer arg this;
                                 ChainedQuery.execute r) w)))) ->
           In k (decodings (trace w)) \/ k = AsBlob)
     /\ (forall arg r,
           network w (request_of c (apply_call q (Crenderer arg))) = Responds r ->
           ok r = true ->
           fst ((r ← ChainedQuery.renderer arg this; ChainedQuery.execute r) w)
           = Returns (Blob (bytes r))))
  /\ (reqType q <> Export ->
      forall r, network w (request_of c q) = Responds r -> ok r = true ->
        (rendererArg q = Json ->
           fst (ChainedQuery.execute this w)
           = match parsed r with
             | Some v => Returns (Structured v)
             | None => Throws (JS.SyntaxError "Unexpected token in JSON")
             end
           /\ decodings (trace (snd (ChainedQuery.execute this w)))
              = decodings (trace w) ++ [AsJson])
        /\ (rendererArg q <> Json ->
              fst (ChainedQuery.execute this w) = Returns (Text (bytes r))
              /\ decodings (trace (snd (ChainedQuery.execute this w)))
                 = decodings (trace w) ++ [AsText])).
Proof.
  intros H Hc.
  assert (Hexport : forall (w0 : World) (q0 : ChainedQuery),
             heap w0 !! this = Some q0 -> httpClient (client q0) = Some c ->
             reqType q0 = Export ->
             (forall k, In k (decodings (trace (snd (ChainedQuery.execute this w0)))) ->
                        In k (decodings (trace w0)) \/ k = AsBlob)
             /\ (forall r, network w0 (request_of c q0) = Responds r -> ok r = true ->
                   fst (ChainedQuery.execute this w0) = Returns (Blob (bytes r)))).
  { intros w0 q0 H0 Hc0 Hexp.
    rewrite (execute_run this w0 q0 H0 c Hc0). cbv zeta. rewrite Hexp.
    cbn [ReqType_eqb]. split.
    - intros k.
      destruct (network w0 (request_of c q0)) as [r|e]; [destruct (ok r)|];
        unfold Response_blob, mbind, M_bind, emit, mret, M_ret, observe;
        cbn [fst snd trace heap network];
        rewrite ?decodings_app; cbn [decodings]; rewrite ?app_nil_r;
        intros Hk; try (left; exact Hk).
      apply in_app_or in Hk as [Hk|[<-|[]]]; [left; exact Hk|right; reflexivity].
    - intros r -> ->. reflexivity. }
  split.
  - intros Hexp.
    destruct (Hexport w q H Hc Hexp) as [Hdec Hblob].
    split; [exact Hdec|]. split; [exact Hblob|].
    assert (Hafter : forall arg,
               (r ← ChainedQuery.renderer arg this; ChainedQuery.execute r) w
               = ChainedQuery.execute this (store this (apply_call q (Crenderer arg)) w)).
    { intros arg. erewrite bind_run by (apply renderer_run; exact H). reflexivity. }
    split.
    + intros arg k. rewrite Hafter.
      apply (proj1 (Hexport _ (apply_call q (Crenderer arg))
                      (lookup_store this q _ w H) Hc Hexp)).
    + intros arg r. rewrite Hafter.
      apply (proj2 (Hexport _ (apply_call q (Crenderer arg))
                      (lookup_store this q _ w H) Hc Hexp)).
  - intros Hne r Hnet Hok.
    rewrite (execute_run this w q H c Hc). cbv zeta. rewrite Hnet, Hok.
    assert (Hb : ReqType_eqb (reqType q) Export = false).
    { destruct (ReqType_eqb (reqType q) Export) eqn:E; [|reflexivity].
      apply ReqType_eqb_eq in E. contradiction. }
    rewrite Hb. split.
    + intros ->. cbn [Renderer_eqb].
      unfold Response_json, mbind, M_bind, emit, mret, M_ret, throw, observe.
      cbn [fst snd trace heap network].
      destruct (parsed r); cbn [fst snd trace];
        rewrite !decodings_app; cbn [decodings]; rewrite app_nil_r;
        split; reflexivity.
    + intros Hr.
      assert (Hj : Renderer_eqb (rendererArg q) Json = false).
      { destruct (Renderer_eqb (rendererArg q) Json) eqn:E; [|reflexivity].
        apply Renderer_eqb_eq in E. contradiction. }
      rewrite Hj.
      unfold Response_text, mbind, M_bind, emit, mret, M_ret, observe.
      cbn [fst snd trace heap network].
      rewrite !decodings_app. cbn [decodings]. rewrite app_nil_r.
      split; reflexivity.
Qed.

Lemma export_never_decodes_witness :
  fst ((r ← ChainedQuery.renderer Json 0; ChainedQuery.execute r)
         (sample_world answers_ok (sample_query Export [] [])))
  = Returns (Blob "[]")
  /\ fst (ChainedQuery.execute 0 (sample_world answers_ok (sample_query Get [] [])))
     = Returns (Structured (JsonOf "[]")).
Proof.
  split.
  - refine (proj2 (proj2 (proj2
             (proj1 (export_never_decodes 0
                       (sample_world answers_ok (sample_query Export [] []))
                       (sample_query Export [] [])
                       {| captured_authHeader := "Basic dXNlcjpwdw==" |}
                       eq_refl eq_refl) eq_refl)))
             Json {| ok := true; statusText := "OK"; bytes := "[]";
                     parsed := Some (JsonOf "[]") |} eq_refl eq_refl).
  - refine (proj1 (proj1 (proj2 (export_never_decodes 0
                       (sample_world answers_ok (sample_query Get [] []))
                       (sample_query Get [] [])
                       {| captured_authHeader := "Basic dXNlcjpwdw==" |}
                       eq_refl eq_refl) _
             {| ok := true; statusText := "OK"; bytes := "[]";
                parsed := Some (JsonOf "[]") |} eq_refl eq_refl) eq_refl)).
    discriminate.
Defined.

(** C7, as the code has it.  When the transport call fails, or the
    response is not a success, [execute] rejects with one error whose
    message is [Failed to make API request: ] followed by the message of
    the failure, respectively by the transport method's own text
    ([Failed to fetch | export | insert | update | delete data: ]) and
    the status text.  One request was sent and no other; nothing in the
    message names the table or script. *)
Theorem execute_wraps_failure (this : loc) (w : World) (q : ChainedQuery)
    (c : HttpClient) :
  heap w !! this = Some q -> httpClient (client q) = Some c ->
  (forall e, network w (request_of c q) = Fails e ->
     ChainedQuery.execute this w
     = (Throws (JS.MkError ("Failed to make API request: " +:+ JS.message e)),
        observe [ConsoleLog (ChainedQuery.chainedUrl q); Fetch (request_of c q)] w))
  /\ (forall r, network w (request_of c q) = Responds r -> ok r = false ->
        ChainedQuery.execute this w
        = (Throws (JS.MkError ("Failed to make API request: "
                               +:+ failure_text (reqType q) +:+ statusText r)),
           observe [ConsoleLog (ChainedQuery.chainedUrl q); Fetch (request_of c q)] w))
  /\ requested_urls (trace (snd (ChainedQuery.execute this w)))
     = requested_urls (trace w) ++ [ChainedQuery.chainedUrl q].
Proof.
  intros H Hc. split; [|split].
  - intros e Hnet. rewrite (execute_run this w q H c Hc). cbv zeta.
    rewrite Hnet. reflexivity.
  - intros r Hnet Hok. rewrite (execute_run this w q H c Hc). cbv zeta.
    rewrite Hnet, Hok. reflexivity.
  - apply execute_requests; [exact H|]. rewrite Hc. eexists; reflexivity.
Qed.

Lemma execute_wraps_failure_witness :
  ChainedQuery.execute 0 (sample_world answers_not_found (sample_query Put [] ["id=7"]))
  = (Throws (JS.MkError "Failed to make API request: Failed to update data: Not Found"),
     observe
       [ConsoleLog "http://localhost:3000/public/products?id=7";
        Fetch {| url := "http://localhost:3000/public/products?id=7"; method := "PUT";
                 headers := [("Content-Type", "application/json");
                             ("Authorization", "Basic dXNlcjpwdw==")];
                 payload := Some "null" |}]
       (sample_world answers_not_found (sample_query Put [] ["id=7"]))).
Proof.
  exact (proj1 (proj2 (execute_wraps_failure 0
                         (sample_world answers_not_found (sample_query Put [] ["id=7"]))
                         (sample_query Put [] ["id=7"])
                         {| captured_authHeader := "Basic dXNlcjpwdw==" |}
                         eq_refl eq_refl))
           {| ok := false; statusText := "Not Found"; bytes := ""; parsed := None |}
           eq_refl eq_refl).
Defined.

(** C7 as stated fails: listing the table [products] against a gateway
    that answers 404 rejects with a message in which [products] does not
    occur, and which is the same for the table [orders]; against an
    unreachable gateway the message names no operation either. *)
Lemma failure_message_omits_target :
  fst (list_then_execute sample_options "products" [] (fresh_world answers_not_found))
  = Throws (JS.MkError "Failed to make API request: Failed to fetch data: Not Found")
  /\ occurs_in "products" "Failed to make API request: Failed to fetch data: Not Found"
     = false
  /\ fst (list_then_execute sample_options "orders" [] (fresh_world answers_not_found))
     = fst (list_then_execute sample_options "products" []
              (fresh_world answers_not_found))
  /\ fst (list_then_execute sample_options "products" [] (fresh_world unreachable))
     = Throws (JS.MkError "Failed to make API request: fetch failed").
Proof. repeat split. Qed.

(* ================================================================== *)
(** ** What builder calls leave alone *)
(* ================================================================== *)

Section PlatformFrame.

Variable encodeURIComponent : JS.Value -> Outcome string.
Variable stringify : list (string * JS.Value) -> Outcome string.
Variables (this : loc) (w : World) (q : ChainedQuery).
Hypothesis Hthis : heap w !! this = Some q.

Local Abbreviation settles := (settles encodeURIComponent stringify this w q).

Lemma settles_thrown (call : BuilderCall) (e : JS.Error) :
  (exists v, encodeURIComponent v = Throws e)
  \/ (exists obj, stringify obj = Throws e) ->
  settles call (Throws e, w).
Proof.
  intros He. exists (Throws e), [], [], (rendererArg q). split.
  - rewrite grown_nothing, (store_same this q w Hthis). reflexivity.
  - right. exists e. repeat split. exact He.
Qed.

Lemma settles_clause (call : BuilderCall) (clause : string) :
  renderer_after call (rendererArg q) = rendererArg q ->
  settles call (Returns this, store this (add_clause clause q) w).
Proof.
  intros Hmode. exists (Returns this), [clause], [], (rendererArg q). split.
  - unfold grown, add_clause. rewrite app_nil_r. reflexivity.
  - left. split; [reflexivity|]. symmetry. exact Hmode.
Qed.

Lemma settles_directive (call : BuilderCall) (obj : list (string * JS.Value)) :
  renderer_after call (rendererArg q) = rendererArg q ->
  settles call
    ((clause ← lift (stringify obj);
      ChainedQuery.push_chainedOperations this clause;; mret this) w).
Proof.
  intros Hmode. rewrite (directive_builder_run stringify this w q Hthis).
  destruct (stringify obj) as [clause|e] eqn:E.
  - apply settles_clause. exact Hmode.
  - apply settles_thrown. right. exists obj. exact E.
Qed.

Lemma settles_escaped (call : BuilderCall) (value : JS.Value)
    (clause : string -> string) :
  renderer_after call (rendererArg q) = rendererArg q ->
  settles call
    ((escaped ← lift (encodeURIComponent value);
      ChainedQuery.push_chainedOperations this (clause escaped);; mret this) w).
Proof.
  intros Hmode. rewrite (escaped_builder_run encodeURIComponent this w q Hthis).
  destruct (encodeURIComponent value) as [escaped|e] eqn:E.
  - apply settles_clause. exact Hmode.
  - apply settles_thrown. left. exists value. exact E.
Qed.

Lemma settles_plain (call : BuilderCall) :
  settles call (invoke call this w).
Proof.
  rewrite (invoke_run this w q Hthis call).
  exists (Returns this), (clauses_of call), (aggregates_of call),
    (renderer_after call (rendererArg q)).
  split; [reflexivity|]. left. split; reflexivity.
Qed.

Lemma settles_renderer (arg : Renderer) :
  settles (Crenderer arg) (Platform.renderer stringify arg this w).
Proof.
  rewrite (platform_renderer_run stringify this w q Hthis).
  destruct (stringify _) as [clause|e] eqn:E.
  - exists (Returns this), [clause], [], arg. split; [reflexivity|].
    left. split; reflexivity.
  - apply settles_thrown. right. eexists. exact E.
Qed.

Lemma settles_filterRange (field : string) (start end_ : JS.Value) :
  settles (CfilterRange field start end_)
    (Platform.filterRange encodeURIComponent field start end_ this w).
Proof.
  unfold Platform.filterRange.
  assert (Hlast : forall added,
             settles (CfilterRange field start end_)
               (((if JS.strict_eq_zero end_ || JS.truthy end_
                  then escaped ← lift (encodeURIComponent end_);
                       ChainedQuery.push_chainedOperations this
                         (field +:+ "=$lte." +:+ escaped)
                  else mret tt);; mret this)
                  (store this (add_clauses added q) w))).
  { intros added.
    assert (H1 : heap (store this (add_clauses added q) w) !! this
                 = Some (add_clauses added q))
      by (eapply lookup_store; exact Hthis).
    pose proof (escaped_clause_run encodeURIComponent this _ _ H1 end_
                  (fun escaped => field +:+ "=$lte." +:+ escaped)) as Hrun.
    destruct (JS.strict_eq_zero end_ || JS.truthy end_).
    - destruct (encodeURIComponent end_) as [escaped|e] eqn:E.
      + erewrite bind_run by exact Hrun.
        rewrite store_store.
        exists (Returns this), (added ++ [field +:+ "=$lte." +:+ escaped]), [],
          (rendererArg q).
        split; [|left; split; reflexivity].
        unfold mret, M_ret, grown, add_clause, add_clauses.
        cbn [client baseUrl reqType body rendererArg sqlFunctions chainedOperations].
        rewrite app_nil_r, <- app_assoc. reflexivity.
      + erewrite bind_throw by exact Hrun.
        exists (Throws e), added, [], (rendererArg q).
        split.
        * unfold grown, add_clauses. rewrite app_nil_r. reflexivity.
        * right. exists e. repeat split. left. exists end_. exact E.
    - erewrite bind_run by reflexivity.
      exists (Returns this), added, [], (rendererArg q).
      split; [|left; split; reflexivity].
      unfold mret, M_ret, grown, add_clauses. rewrite app_nil_r. reflexivity. }
  pose proof (escaped_clause_run encodeURIComponent this w q Hthis start
                (fun escaped => field +:+ "=$gte." +:+ escaped)) as Hrun.
  destruct (JS.strict_eq_zero start || JS.truthy start).
  - destruct (encodeURIComponent start) as [escaped|e] eqn:E.
    + erewrite bind_run by exact Hrun.
      apply (Hlast [field +:+ "=$gte." +:+ escaped]).
    + erewrite bind_throw by exact Hrun.
      apply settles_thrown. left. exists start. exact E.
  - erewrite bind_run by reflexivity.
    specialize (Hlast []).
    rewrite add_clauses_nothing, (store_same this q w Hthis) in Hlast.
    exact Hlast.
Qed.

(** Every builder call settles. *)
Lemma platform_invoke_settles (call : BuilderCall) :
  settles call (Platform.invoke encodeURIComponent stringify call this w).
Proof.
  destruct call; cbn [Platform.invoke];
    try (apply settles_plain);
    try (apply settles_renderer);
    try (apply settles_filterRange);
    unfold Platform.page, Platform.pageSize, Platform.select, Platform.count,
      Platform.countFirst, Platform.distinct, Platform.order, Platform.groupBy,
      Platform.eq, Platform.gt, Platform.gte, Platform.lt, Platform.lte,
      Platform.ne, Platform.like, Platform.ilike, Platform.notLike,
      Platform.having, Platform.jsonbFilter, Platform.textSearch;
    cbv zeta;
    first [ apply settles_directive; reflexivity
          | apply (settles_escaped _ _ (fun escaped => _)); reflexivity ].
Qed.

End PlatformFrame.



(** Builder calls that throw: [eq] on a value and [select] on a field
    list that hold a lone surrogate throw the [URIError] of
    [encodeURIComponent] and of [querystring.stringify], and leave the
    query as it was. *)
Lemma builder_throws_on_unencodable :
  Platform.invoke URI.encodeURIComponent URI.stringify
    (Ceq "name" (JS.VString URI.lone_surrogate)) 0
    (sample_world answers_ok (sample_query Get [] ["_page=1"]))
  = (Throws (JS.URIError "URI malformed"),
     sample_world answers_ok (sample_query Get [] ["_page=1"]))
  /\ Platform.invoke URI.encodeURIComponent URI.stringify
       (Cselect URI.lone_surrogate) 0
       (sample_world answers_ok (sample_query Get [] ["_page=1"]))
     = (Throws (JS.URIError "URI malformed"),
        sample_world answers_ok (sample_query Get [] ["_page=1"])).
Proof. split; reflexivity. Qed.


(* ================================================================== *)
(** ** Resolving a table identifier *)
(* ================================================================== *)

Section Identifiers.

Lemma truthy_nonempty (s : string) : s <> "" -> JS.truthy (JS.VString s) = true.
Proof. intros H. destruct s; [contradiction|reflexivity]. Qed.

Lemma or_else_left (l fallback : string) :
  or_else (Some l) fallback = if String.eqb l "" then fallback else l.
Proof. destruct l; reflexivity. Qed.

Variables (this : PrestApiClient) (c : HttpClient).
Hypothesis Hclient : httpClient this = Some c.

(** An identifier with a separator: the schema is the text before the
    first separator, the table the second piece of the split. *)
Lemma table_dotted (l r : string) :
  JS.includes "." l = false ->
  PrestApiClient.table this (Some (l +:+ "." +:+ r))
  = Returns {| owner := this;
               schemaName := if String.eqb l "" then "public" else l;
               tableName := JS.split "." r !! 0%nat |}.
Proof.
  intros Hl. unfold PrestApiClient.table. rewrite Hclient.
  change (l +:+ "." +:+ r) with (l +:+ String "." r).
  assert (Hne : l +:+ String "." r <> "") by (destruct l; discriminate).
  rewrite (truthy_nonempty _ Hne). cbn [negb].
  rewrite includes_append_separator. cbv zeta.
  rewrite (split_at_first "." l r Hl).
  cbn [lookup list_lookup]. rewrite or_else_left. reflexivity.
Qed.

(** With further separators the table is the text between the first
    two of them; what follows is dropped. *)
Lemma table_keeps_second_segment (l m r : string) :
  JS.includes "." l = false -> JS.includes "." m = false ->
  PrestApiClient.table this (Some (l +:+ "." +:+ m +:+ "." +:+ r))
  = Returns {| owner := this;
               schemaName := if String.eqb l "" then "public" else l;
               tableName := Some m |}.
Proof.
  intros Hl Hm. rewrite (table_dotted l (m +:+ "." +:+ r) Hl).
  change (m +:+ "." +:+ r) with (m +:+ String "." r).
  rewrite (split_at_first "." m r Hm). reflexivity.
Qed.

End Identifiers.

(** C3, as the code has it.  On an initialised client [table] rejects
    an absent or empty identifier.  For a non-empty identifier without
    [.], the schema is [public] and the table is the whole string.  For
    an identifier with exactly one [.], the schema is the part before
    it, or [public] when that part is empty, and the table is the whole
    part after it, which may be empty.  [categories] and
    [public.categories] resolve to schema [public], table [categories];
    [public.] to schema [public] and the empty table. *)
Theorem table_resolution :
  (forall (this : PrestApiClient) (name : string),
      is_Some (httpClient this) -> name <> "" ->
      (JS.includes "." name = false ->
       PrestApiClient.table this (Some name)
       = Returns {| owner := this; schemaName := "public"; tableName := Some name |})
      /\ (forall l r : string,
            name = l +:+ "." +:+ r ->
            JS.includes "." l = false -> JS.includes "." r = false ->
            PrestApiClient.table this (Some name)
            = Returns {| owner := this;
                         schemaName := if String.eqb l "" then "public" else l;
                         tableName := Some r |}))
  /\ (forall this : PrestApiClient,
        is_Some (httpClient this) ->
        PrestApiClient.table this None = Throws (JS.MkError "table name is required")
        /\ PrestApiClient.table this (Some "")
           = Throws (JS.MkError "table name is required")
        /\ PrestApiClient.table this (Some "categories")
           = Returns {| owner := this; schemaName := "public";
                        tableName := Some "categories" |}
        /\ PrestApiClient.table this (Some "public.categories")
           = Returns {| owner := this; schemaName := "public";
                        tableName := Some "categories" |}
        /\ PrestApiClient.table this (Some "public.")
           = Returns {| owner := this; schemaName := "public"; tableName := Some "" |}).
Proof.
  split.
  - intros this name [c Hc] Hne. split.
    + intros Hdot. unfold PrestApiClient.table.
      rewrite Hc, (truthy_nonempty name Hne), Hdot. reflexivity.
    + intros l r -> Hl Hr.
      rewrite (table_dotted this c Hc l r Hl), (split_no_separator "." r Hr).
      reflexivity.
  - intros this [c Hc]. unfold PrestApiClient.table. rewrite Hc.
    repeat split.
Qed.

Lemma table_resolution_witness :
  PrestApiClient.table sample_client (Some "sales.orders")
  = Returns {| owner := sample_client; schemaName := "sales"; tableName := Some "orders" |}.
Proof.
  refine (proj2 (proj1 table_resolution sample_client "sales.orders" _ _)
            "sales" "orders" eq_refl eq_refl eq_refl).
  - eexists; reflexivity.
  - discriminate.
Defined.

(** C3 as stated fails: the part before the [.] of [.orders] is empty,
    and the schema is [public]; the part after the first [.] of
    [a.b.c] is [b.c], and the table is [b]. *)
Lemma table_not_split_at_first_dot :
  PrestApiClient.table sample_client (Some ".orders")
  = Returns {| owner := sample_client; schemaName := "public";
               tableName := Some "orders" |}
  /\ ".orders" = "" +:+ "." +:+ "orders"
  /\ PrestApiClient.table sample_client (Some "a.b.c")
     = Returns {| owner := sample_client; schemaName := "a"; tableName := Some "b" |}
  /\ "a.b.c" = "a" +:+ "." +:+ "b.c".
Proof. repeat split. Qed.

(* ================================================================== *)
(** ** More on execute: what is sent, how it settles, what it keeps *)
(* ================================================================== *)

Section ExecuteMore.

Lemma requests_app (t1 t2 : list Event) :
  requests (t1 ++ t2) = requests t1 ++ requests t2.
Proof.
  induction t1 as [|[line|req|k] t1 IH]; cbn [app requests];
    rewrite ?IH; reflexivity.
Qed.

Lemma decoder_choice_keeps (q : ChainedQuery) (r : Response) (w : World) :
  exists k,
    snd ((if ReqType_eqb (reqType q) Export then Response_blob r
          else if Renderer_eqb (rendererArg q) Json then Response_json r
          else Response_text r) w)
    = observe [Decode k] w.
Proof.
  destruct (ReqType_eqb (reqType q) Export);
    [|destruct (Renderer_eqb (rendererArg q) Json)];
    eexists;
    unfold Response_blob, Response_json, Response_text, mbind, M_bind, emit;
    cbn [fst snd]; try reflexivity.
  destruct (parsed r); reflexivity.
Qed.

(** The world after [execute]: the store and the network are as before,
    and the trace has grown. *)
Lemma execute_world (this : loc) (w : World) :
  exists evs, snd (ChainedQuery.execute this w) = observe evs w.
Proof.
  assert (Hnil : w = observe [] w).
  { destruct w. unfold observe. cbn [heap trace network].
    rewrite app_nil_r. reflexivity. }
  destruct (heap w !! this) as [q|] eqn:H.
  - destruct (httpClient (client q)) as [c|] eqn:Hc.
    + rewrite (execute_run this w q H c Hc). cbv zeta.
      destruct (network w (request_of c q)) as [r|e];
        [destruct (ok r)|]; try (eexists; reflexivity).
      destruct (decoder_choice_keeps q r
                  (observe [ConsoleLog (ChainedQuery.chainedUrl q);
                            Fetch (request_of c q)] w)) as [k ->].
      eexists. unfold observe. cbn [heap trace network].
      rewrite <- app_assoc. reflexivity.
    + rewrite (execute_uninitialised this w q H Hc). eexists; reflexivity.
  - exists []. unfold ChainedQuery.execute, mbind, M_bind, deref.
    rewrite H. exact Hnil.
Qed.

(** The one request [execute] sends on an initialised client. *)
Lemma execute_sends (this : loc) (w : World) (q : ChainedQuery) (c : HttpClient) :
  heap w !! this = Some q -> httpClient (client q) = Some c ->
  requests (trace (snd (ChainedQuery.execute this w)))
  = requests (trace w) ++ [request_of c q].
Proof.
  intros H Hc. rewrite (execute_run this w q H c Hc). cbv zeta.
  destruct (network w (request_of c q)) as [r|e]; [destruct (ok r)|].
  - destruct (decoder_choice_keeps q r
                (observe [ConsoleLog (ChainedQuery.chainedUrl q);
                          Fetch (request_of c q)] w)) as [k ->].
    unfold observe. cbn [trace]. rewrite !requests_app. cbn [requests].
    rewrite app_nil_r. reflexivity.
  - unfold observe. cbn [snd trace]. rewrite requests_app. reflexivity.
  - unfold observe. cbn [snd trace]. rewrite requests_app. reflexivity.
Qed.

End ExecuteMore.

(** X1.  On an initialised client [execute] sends exactly one request:
    to the URL it assembled, with the verb of the request type (an
    export is a POST), always with the client's [Authorization] header,
    with the JSON text of the body and a JSON content type exactly for
    post, put and export, and with [Accept: text/csv] exactly for
    export. *)
Theorem execute_request_shape (this : loc) (w : World) (q : ChainedQuery)
    (c : HttpClient) :
  heap w !! this = Some q -> httpClient (client q) = Some c ->
  exists req,
    requests (trace (snd (ChainedQuery.execute this w))) = requests (trace w) ++ [req]
    /\ url req = ChainedQuery.chainedUrl q
    /\ method req = match reqType q with
                    | Get => "GET" | Post | Export => "POST"
                    | Put => "PUT" | Delete => "DELETE"
                    end
    /\ In ("Authorization", captured_authHeader c) (headers req)
    /\ payload req = match reqType q with
                     | Get | Delete => None
                     | Post | Put | Export => Some (JSON_stringify (body q))
                     end
    /\ (In ("Content-Type", "application/json") (headers req)
        <-> payload req <> None)
    /\ (In ("Accept", "text/csv") (headers req) <-> reqType q = Export).
Proof.
  intros H Hc. exists (request_of c q).
  split; [apply execute_sends; assumption|].
  unfold request_of.
  destruct (reqType q); cbn [url method headers payload In];
    repeat split; try reflexivity; try discriminate; intuition congruence.
Qed.

Lemma execute_request_shape_witness :
  exists req,
    requests
      (trace (snd (ChainedQuery.execute 0
                     (sample_world answers_ok (sample_query Export [] ["id=7"])))))
    = [req]
    /\ method req = "POST"
    /\ payload req = Some "null"
    /\ In ("Accept", "text/csv") (headers req).
Proof.
  destruct (execute_request_shape 0
              (sample_world answers_ok (sample_query Export [] ["id=7"]))
              (sample_query Export [] ["id=7"])
              {| captured_authHeader := "Basic dXNlcjpwdw==" |} eq_refl eq_refl)
    as (req & Hsent & _ & Hmethod & _ & Hpayload & _ & Haccept).
  exists req. split; [exact Hsent|]. split; [exact Hmethod|].
  split; [exact Hpayload|]. apply Haccept. reflexivity.
Defined.

Section PlatformExecute.

Variables blob json text : Response -> M Decoded.
Variables (this : loc) (w : World) (q : ChainedQuery).
Hypothesis Hthis : heap w !! this = Some q.

(** What a settled call of [execute] amounts to, whatever the body
    readers of the platform do. *)
Lemma platform_execute_run (c : HttpClient) :
  httpClient (client q) = Some c ->
  Platform.execute blob json text this w =
  let w1 := observe [ConsoleLog (ChainedQuery.chainedUrl q); Fetch (request_of c q)] w in
  match network w (request_of c q) with
  | Fails e =>
      (Throws (JS.MkError ("Failed to make API request: " +:+ JS.message e)), w1)
  | Responds r =>
      if ok r then Platform.reader blob json text q r w1
      else
        (Throws (JS.MkError ("Failed to make API request: "
                             +:+ failure_text (reqType q) +:+ statusText r)), w1)
  end.
Proof.
  intros Hc. unfold Platform.execute, Platform.reader.
  erewrite bind_run by (unfold deref; rewrite Hthis; reflexivity).
  cbv zeta. unfold getHttpClientMethod. rewrite Hc.
  unfold try_catch, mbind, M_bind, emit, observe, request_of.
  cbn [heap trace network].
  destruct (reqType q); cbn [ReqType_eqb failure_text];
    unfold mret, M_ret, client_get, client_post, client_put, client_delete,
      client_export, fetch, mbind, M_bind, require_ok, throw;
    cbn [heap trace network];
    match goal with
    | |- context [network w ?r] => destruct (network w r) as [r0|e]
    end;
    cbn [JS.message]; rewrite <- ?app_assoc; cbn [app];
    try reflexivity;
    destruct (ok r0); cbn [negb JS.message]; try reflexivity;
    destruct (Renderer_eqb (rendererArg q) Json); reflexivity.
Qed.

Lemma platform_execute_uninitialised :
  httpClient (client q) = None ->
  Platform.execute blob json text this w =
  (Throws (JS.MkError "Failed to make API request: Client not initialized"),
   observe [ConsoleLog (ChainedQuery.chainedUrl q)] w).
Proof.
  intros Hc. unfold Platform.execute.
  erewrite bind_run by (unfold deref; rewrite Hthis; reflexivity).
  cbv zeta. unfold getHttpClientMethod. rewrite Hc. reflexivity.
Qed.

End PlatformExecute.

(** X2.  [execute] reads the body of the answer with [blob()] on an
    export, with [json()] on any other query in rendering mode [json],
    and with [text()] otherwise.  On an initialised client it resolves
    with a value exactly when the gateway answers the request with a
    success status and that body read resolves with this value,
    whatever the three body reads of the platform do. *)
Theorem execute_resolves_iff (blob json text : Response -> M Decoded)
    (this : loc) (w : World) (q : ChainedQuery) (c : HttpClient) :
  heap w !! this = Some q -> httpClient (client q) = Some c ->
  (reqType q = Export -> Platform.reader blob json text q = blob)
  /\ (reqType q <> Export -> rendererArg q = Json ->
      Platform.reader blob json text q = json)
  /\ (reqType q <> Export -> rendererArg q <> Json ->
      Platform.reader blob json text q = text)
  /\ forall v,
      fst (Platform.execute blob json text this w) = Returns v
      <-> exists r,
            network w (request_of c q) = Responds r /\ ok r = true
            /\ fst (Platform.reader blob json text q r
                      (observe [ConsoleLog (ChainedQuery.chainedUrl q);
                                Fetch (request_of c q)] w))
               = Returns v.
Proof.
  intros H Hc.
  split.
  { intros E. unfold Platform.reader. rewrite E. reflexivity. }
  split.
  { intros Hne E. unfold Platform.reader. rewrite E.
    destruct (ReqType_eqb (reqType q) Export) eqn:Hexp; [|reflexivity].
    apply ReqType_eqb_eq in Hexp. contradiction. }
  split.
  { intros Hne Hmode. unfold Platform.reader.
    destruct (ReqType_eqb (reqType q) Export) eqn:Hexp.
    - apply ReqType_eqb_eq in Hexp. contradiction.
    - destruct (rendererArg q); [contradiction|reflexivity]. }
  intros v. rewrite (platform_execute_run blob json text this w q H c Hc).
  cbv zeta.
  destruct (network w (request_of c q)) as [r|e].
  - destruct (ok r) eqn:Hok.
    + split.
      * intros Hv. exists r. split; [reflexivity|]. split; [exact Hok|exact Hv].
      * intros (r' & Hr' & _ & Hv). injection Hr' as <-. exact Hv.
    + split; [intros Hv; discriminate|].
      intros (r' & Hr' & Hok' & _). injection Hr' as <-. congruence.
  - split; [intros Hv; discriminate|].
    intros (r' & Hr' & _). discriminate.
Qed.

Lemma execute_resolves_iff_witness :
  fst (Platform.execute Response_blob Response_json Response_text 0
         (sample_world answers_ok (sample_query Get [] [])))
  = Returns (Structured (JsonOf "[]")).
Proof.
  apply (proj2 (proj2 (proj2 (proj2
           (execute_resolves_iff Response_blob Response_json Response_text 0
              (sample_world answers_ok (sample_query Get [] []))
              (sample_query Get [] [])
              {| captured_authHeader := "Basic dXNlcjpwdw==" |}
              eq_refl eq_refl))) (Structured (JsonOf "[]")))).
  eexists. split; [reflexivity|]. split; reflexivity.
Defined.

(** X3.  Whatever [execute] rejects with is either an error whose
    message starts with [Failed to make API request: ], or the very
    rejection of the body read it chose ([blob()], [json()] or
    [text()]) on an answer with a success status; and every rejection
    of that body read is the rejection of [execute], passed on as it
    is, without the prefix: the [catch] of [execute] does not see it. *)
Theorem execute_rejections (blob json text : Response -> M Decoded)
    (this : loc) (w : World) (q : ChainedQuery) :
  heap w !! this = Some q ->
  (forall e,
     fst (Platform.execute blob json text this w) = Throws e ->
     (exists m, e = JS.MkError ("Failed to make API request: " +:+ m))
     \/ exists c r,
          httpClient (client q) = Some c
          /\ network w (request_of c q) = Responds r /\ ok r = true
          /\ fst (Platform.reader blob json text q r
                    (observe [ConsoleLog (ChainedQuery.chainedUrl q);
                              Fetch (request_of c q)] w))
             = Throws e)
  /\ (forall c r e,
        httpClient (client q) = Some c ->
        network w (request_of c q) = Responds r -> ok r = true ->
        fst (Platform.reader blob json text q r
               (observe [ConsoleLog (ChainedQuery.chainedUrl q);
                         Fetch (request_of c q)] w))
        = Throws e ->
        fst (Platform.execute blob json text this w) = Throws e).
Proof.
  intros H. split.
  - intros e. destruct (httpClient (client q)) as [c|] eqn:Hc.
    + rewrite (platform_execute_run blob json text this w q H c Hc). cbv zeta.
      destruct (network w (request_of c q)) as [r|e0] eqn:Hnet.
      * destruct (ok r) eqn:Hok.
        -- intros E. right. exists c, r. repeat split; assumption.
        -- cbn [fst]. intros E. injection E as <-. left. eexists; reflexivity.
      * cbn [fst]. intros E. injection E as <-. left. eexists; reflexivity.
    + rewrite (platform_execute_uninitialised blob json text this w q H Hc).
      cbn [fst]. intros E. injection E as <-. left. eexists; reflexivity.
  - intros c r e Hc Hnet Hok Hread.
    rewrite (platform_execute_run blob json text this w q H c Hc). cbv zeta.
    rewrite Hnet, Hok. exact Hread.
Qed.

Lemma execute_rejections_witness :
  fst (Platform.execute (fun _ => throw (JS.TypeError "Failed to fetch"))
         Response_json Response_text 0
         (sample_world answers_ok (sample_query Export [] [])))
  = Throws (JS.TypeError "Failed to fetch").
Proof.
  apply (proj2 (execute_rejections (fun _ => throw (JS.TypeError "Failed to fetch"))
                  Response_json Response_text 0
                  (sample_world answers_ok (sample_query Export [] []))
                  (sample_query Export [] []) eq_refl)
           {| captured_authHeader := "Basic dXNlcjpwdw==" |}
           {| ok := true; statusText := "OK"; bytes := "[]";
              parsed := Some (JsonOf "[]") |});
    reflexivity.
Defined.

(** X4.  [execute] changes no object of the store, so the query can be
    executed again: whatever the first call settled with, a second call
    sends the same request once more. *)
Theorem execute_repeatable (this : loc) (w : World) (q : ChainedQuery) (c : HttpClient) :
  heap w !! this = Some q -> httpClient (client q) = Some c ->
  heap (snd (ChainedQuery.execute this w)) = heap w
  /\ requests (trace (snd (ChainedQuery.execute this
                             (snd (ChainedQuery.execute this w)))))
     = requests (trace w) ++ [request_of c q; request_of c q].
Proof.
  intros H Hc. destruct (execute_world this w) as [evs Hw].
  assert (Hheap : heap (snd (ChainedQuery.execute this w)) = heap w)
    by (rewrite Hw; reflexivity).
  split; [exact Hheap|].
  rewrite (execute_sends this (snd (ChainedQuery.execute this w)) q c)
    by (first [rewrite Hheap; exact H | exact Hc]).
  rewrite (execute_sends this w q c H Hc), <- app_assoc. reflexivity.
Qed.

Lemma execute_repeatable_witness :
  requests
    (trace (snd (ChainedQuery.execute 0
                   (snd (ChainedQuery.execute 0
                           (sample_world answers_not_found
                              (sample_query Delete [] ["id=7"])))))))
  = [{| url := "http://localhost:3000/public/products?id=7"; method := "DELETE";
        headers := [("Authorization", "Basic dXNlcjpwdw==")]; payload := None |};
     {| url := "http://localhost:3000/public/products?id=7"; method := "DELETE";
        headers := [("Authorization", "Basic dXNlcjpwdw==")]; payload := None |}].
Proof.
  exact (proj2 (execute_repeatable 0
                  (sample_world answers_not_found (sample_query Delete [] ["id=7"]))
                  (sample_query Delete [] ["id=7"])
                  {| captured_authHeader := "Basic dXNlcjpwdw==" |}
                  eq_refl eq_refl)).
Defined.

(* ================================================================== *)
(** ** The operations of table and query, down to the request *)
(* ================================================================== *)

Section Operations.

Lemma new_run (c0 : PrestApiClient) (base : string) (r : ReqType) (b : Body) (w : World) :
  ChainedQuery.new c0 base r b w
  = (Returns (length (heap w)),
     {| heap := heap w ++ [created c0 base r b]; trace := trace w;
        network := network w |}).
Proof. reflexivity. Qed.

Lemma chainedUrl_after (c0 : PrestApiClient) (base : string) (r : ReqType) (b : Body)
    (calls : list BuilderCall) :
  ChainedQuery.chainedUrl (fold_left apply_call calls (created c0 base r b))
  = base +:+ url_tail calls.
Proof.
  rewrite chainedUrl_eq, fold_clauses, fold_aggregates.
  destruct (fold_fixed calls (created c0 base r b)) as (_ & -> & _).
  reflexivity.
Qed.

(** The request sent for a query that was created, built on and
    executed. *)
Lemma run_query_sends (c0 : PrestApiClient) (c : HttpClient) (base : string)
    (r : ReqType) (b : Body) (calls : list BuilderCall) (w : World) :
  httpClient c0 = Some c ->
  requests (trace (snd (run_query (ChainedQuery.new c0 base r b) calls w)))
  = requests (trace w)
    ++ [request_of c
          {| client := c0; baseUrl := base +:+ url_tail calls; reqType := r;
             body := b; rendererArg := Json; sqlFunctions := [];
             chainedOperations := [] |}].
Proof.
  intros Hc. unfold run_query.
  erewrite bind_run by apply new_run.
  erewrite bind_run
    by (apply (chain_run calls _ _ (created c0 base r b));
        cbn [heap]; apply list_lookup_middle; reflexivity).
  destruct (fold_fixed calls (created c0 base r b)) as (Hcl & _ & Hr & Hb).
  erewrite execute_sends;
    [ | eapply lookup_store; cbn [heap]; apply list_lookup_middle; reflexivity
      | rewrite Hcl; exact Hc ].
  cbn [trace store]. f_equal. f_equal.
  unfold request_of. rewrite chainedUrl_after, Hr, Hb.
  cbn [reqType body created]. unfold ChainedQuery.chainedUrl.
  cbn [chainedOperations sqlFunctions baseUrl length Nat.ltb Nat.leb].
  reflexivity.
Qed.

End Operations.

(** X5.  The seven operations of [table], each followed by any builder
    calls and [execute], send one request.  Its URL is the base URL,
    [/], for [show], [export] and [batchInsert] the segment [show/],
    [export/] or [batch/], then [schema/table], then the query part.
    [list] and [show] are GET and [delete] is DELETE, with no body;
    [insert] and [batchInsert] are POST and [update] is PUT, with the
    JSON text of the data; [export] is a POST that also accepts CSV. *)
Theorem table_operations_on_the_wire (a : Accessor) (c : HttpClient)
    (calls : list BuilderCall) (data : Body) (w : World) :
  httpClient (owner a) = Some c ->
  let base := base_url (options (owner a)) in
  let target := PrestApiClient.location a +:+ url_tail calls in
  let auth := ("Authorization", captured_authHeader c) in
  let json := ("Content-Type", "application/json") in
  let sent := fun create : M loc =>
                requests (trace (snd (run_query create calls w))) in
  sent (PrestApiClient.list a)
  = requests (trace w)
    ++ [{| url := base +:+ "/" +:+ target; method := "GET";
           headers := [auth]; payload := None |}]
  /\ sent (PrestApiClient.show a)
     = requests (trace w)
       ++ [{| url := base +:+ "/show/" +:+ target; method := "GET";
              headers := [auth]; payload := None |}]
  /\ sent (PrestApiClient.export a data)
     = requests (trace w)
       ++ [{| url := base +:+ "/export/" +:+ target; method := "POST";
              headers := [json; ("Accept", "text/csv"); auth];
              payload := Some (JSON_stringify data) |}]
  /\ sent (PrestApiClient.insert a data)
     = requests (trace w)
       ++ [{| url := base +:+ "/" +:+ target; method := "POST";
              headers := [json; auth]; payload := Some (JSON_stringify data) |}]
  /\ sent (PrestApiClient.batchInsert a data)
     = requests (trace w)
       ++ [{| url := base +:+ "/batch/" +:+ target; method := "POST";
              headers := [json; auth]; payload := Some (JSON_stringify data) |}]
  /\ sent (PrestApiClient.update a data)
     = requests (trace w)
       ++ [{| url := base +:+ "/" +:+ target; method := "PUT";
              headers := [json; auth]; payload := Some (JSON_stringify data) |}]
  /\ sent (PrestApiClient.delete a)
     = requests (trace w)
       ++ [{| url := base +:+ "/" +:+ target; method := "DELETE";
              headers := [auth]; payload := None |}].
Proof.
  intros Hc. cbv zeta.
  unfold PrestApiClient.list, PrestApiClient.show, PrestApiClient.export,
    PrestApiClient.insert, PrestApiClient.batchInsert, PrestApiClient.update,
    PrestApiClient.delete.
  repeat split;
    rewrite (run_query_sends _ c _ _ _ calls w Hc);
    unfold request_of; cbn [reqType body baseUrl];
    unfold ChainedQuery.chainedUrl;
    cbn [chainedOperations sqlFunctions baseUrl length Nat.ltb Nat.leb];
    rewrite !append_assoc; reflexivity.
Qed.

Lemma table_operations_on_the_wire_witness :
  requests
    (trace (snd (run_query
                   (PrestApiClient.batchInsert
                      {| owner := sample_client; schemaName := "public";
                         tableName := Some "categories" |}
                      (BodyData "[{},{}]"))
                   [] (fresh_world answers_ok))))
  = [{| url := "http://localhost:3000/batch/public/categories"; method := "POST";
        headers := [("Content-Type", "application/json");
                    ("Authorization", "Basic dXNlcjpwdw==")];
        payload := Some "[{},{}]" |}].
Proof.
  exact (proj1 (proj2 (proj2 (proj2 (proj2
           (table_operations_on_the_wire
              {| owner := sample_client; schemaName := "public";
                 tableName := Some "categories" |}
              {| captured_authHeader := "Basic dXNlcjpwdw==" |}
              [] (BodyData "[{},{}]") (fresh_world answers_ok) eq_refl)))))).
Defined.

(** X6.  The two operations of [query], each followed by any builder
    calls and [execute], send one request: [list] a GET to
    [base/_queries/path/script], [export] a POST that accepts CSV, with
    the JSON text of the data, to [base/_queries/export/path/script]. *)
Theorem query_operations_on_the_wire (a : Accessor) (c : HttpClient)
    (calls : list BuilderCall) (data : Body) (w : World) :
  httpClient (owner a) = Some c ->
  let base := base_url (options (owner a)) in
  let target := PrestApiClient.location a +:+ url_tail calls in
  let auth := ("Authorization", captured_authHeader c) in
  let json := ("Content-Type", "application/json") in
  requests (trace (snd (run_query (PrestApiClient.query_list a) calls w)))
  = requests (trace w)
    ++ [{| url := base +:+ "/_queries/" +:+ target; method := "GET";
           headers := [auth]; payload := None |}]
  /\ requests (trace (snd (run_query (PrestApiClient.query_export a data) calls w)))
     = requests (trace w)
       ++ [{| url := base +:+ "/_queries/export/" +:+ target; method := "POST";
              headers := [json; ("Accept", "text/csv"); auth];
              payload := Some (JSON_stringify data) |}].
Proof.
  intros Hc. cbv zeta.
  unfold PrestApiClient.query_list, PrestApiClient.query_export.
  split;
    rewrite (run_query_sends _ c _ _ _ calls w Hc);
    unfold request_of; cbn [reqType body baseUrl];
    unfold ChainedQuery.chainedUrl;
    cbn [chainedOperations sqlFunctions baseUrl length Nat.ltb Nat.leb];
    rewrite !append_assoc; reflexivity.
Qed.

Lemma query_operations_on_the_wire_witness :
  requests
    (trace (snd (run_query
                   (PrestApiClient.query_list
                      {| owner := sample_client; schemaName := "reports";
                         tableName := Some "daily" |})
                   [Ceq "day" (JS.VString "2024-01-31")] (fresh_world answers_ok))))
  = [{| url := "http://localhost:3000/_queries/reports/daily?day=2024-01-31";
        method := "GET";
        headers := [("Authorization", "Basic dXNlcjpwdw==")];
        payload := None |}].
Proof.
  exact (proj1 (query_operations_on_the_wire
                  {| owner := sample_client; schemaName := "reports";
                     tableName := Some "daily" |}
                  {| captured_authHeader := "Basic dXNlcjpwdw==" |}
                  [Ceq "day" (JS.VString "2024-01-31")] (BodyData "{}")
                  (fresh_world answers_ok) eq_refl)).
Defined.

(* ================================================================== *)
(** ** Identifiers: what table and query accept and what they yield *)
(* ================================================================== *)

Section Pieces.

(** Up to its first separator, a string that has one. *)
Lemma first_separator (c : ascii) (s : string) :
  JS.includes c s = true ->
  exists l r, s = l +:+ String c r /\ JS.includes c l = false.
Proof.
  induction s as [|a s IH]; [discriminate|].
  cbn [JS.includes]. destruct (Ascii.eqb a c) eqn:E.
  - intros _. apply Ascii.eqb_eq in E as ->. exists "", s. split; reflexivity.
  - cbn [orb]. intros H. destruct (IH H) as (l & r & -> & Hl).
    exists (String a l), r. split; [reflexivity|].
    cbn [JS.includes]. rewrite E, Hl. reflexivity.
Qed.

(** No piece of a split holds the separator. *)
Lemma split_pieces (c : ascii) (s : string) :
  Forall (fun piece => JS.includes c piece = false) (JS.split c s).
Proof.
  induction s as [|a s IH]; cbn [JS.split].
  - repeat constructor.
  - destruct (Ascii.eqb a c) eqn:E.
    + constructor; [reflexivity|exact IH].
    + destruct (JS.split c s) as [|piece pieces].
      * constructor; [|constructor]. cbn [JS.includes]. rewrite E. reflexivity.
      * inversion IH as [|? ? Hpiece Hpieces]; subst.
        constructor; [|exact Hpieces].
        cbn [JS.includes]. rewrite E, Hpiece. reflexivity.
Qed.

Lemma split_first_piece (c : ascii) (s : string) :
  exists piece pieces,
    JS.split c s = piece :: pieces /\ JS.includes c piece = false.
Proof.
  pose proof (split_pieces c s) as H.
  destruct (JS.split c s) as [|piece pieces] eqn:E.
  - destruct s as [|a s]; cbn [JS.split] in E; [discriminate|].
    destruct (Ascii.eqb a c); [discriminate|].
    destruct (JS.split c s); discriminate.
  - inversion H; subst. eexists _, _; split; [reflexivity|assumption].
Qed.

(** The script path of [query], as [table_dotted] for [table]. *)
Lemma query_dotted (this : PrestApiClient) (c : HttpClient) (l r : string) :
  httpClient this = Some c ->
  JS.includes "." l = false ->
  PrestApiClient.query this (Some (l +:+ "." +:+ r))
  = Returns {| owner := this;
               schemaName := if String.eqb l "" then l +:+ "." +:+ r else l;
               tableName := JS.split "." r !! 0%nat |}.
Proof.
  intros Hclient Hl. unfold PrestApiClient.query. rewrite Hclient.
  change (l +:+ "." +:+ r) with (l +:+ String "." r).
  assert (Hne : l +:+ String "." r <> "") by (destruct l; discriminate).
  rewrite (truthy_nonempty _ Hne). cbn [negb].
  rewrite includes_append_separator. cbv zeta.
  rewrite (split_at_first "." l r Hl).
  cbn [lookup list_lookup]. rewrite or_else_left. reflexivity.
Qed.

End Pieces.

(** X7.  On an initialised client [query] rejects an absent or empty
    script identifier.  A non-empty identifier without [.] is the
    script, under the empty path, so that its URL has two slashes in a
    row.  In [path.script] the part before the [.] is the path and the
    part after it the script; when the part before the [.] is empty the
    path is the whole identifier, its leading [.] included. *)
Theorem query_resolution (this : PrestApiClient) (c : HttpClient) :
  httpClient this = Some c ->
  PrestApiClient.query this None = Throws (JS.MkError "script name is required")
  /\ PrestApiClient.query this (Some "")
     = Throws (JS.MkError "script name is required")
  /\ (forall name : string,
        name <> "" -> JS.includes "." name = false ->
        PrestApiClient.query this (Some name)
        = Returns {| owner := this; schemaName := ""; tableName := Some name |}
        /\ PrestApiClient.location
             {| owner := this; schemaName := ""; tableName := Some name |}
           = "/" +:+ name)
  /\ (forall l r : string,
        l <> "" -> JS.includes "." l = false -> JS.includes "." r = false ->
        PrestApiClient.query this (Some (l +:+ "." +:+ r))
        = Returns {| owner := this; schemaName := l; tableName := Some r |})
  /\ (forall r : string,
        JS.includes "." r = false ->
        PrestApiClient.query this (Some ("." +:+ r))
        = Returns {| owner := this; schemaName := "." +:+ r; tableName := Some r |}).
Proof.
  intros Hc. split; [|split; [|split; [|split]]].
  - unfold PrestApiClient.query. rewrite Hc. reflexivity.
  - unfold PrestApiClient.query. rewrite Hc. reflexivity.
  - intros name Hne Hdot. split; [|reflexivity].
    unfold PrestApiClient.query.
    rewrite Hc, (truthy_nonempty name Hne), Hdot. reflexivity.
  - intros l r Hne Hl Hr.
    rewrite (query_dotted this c l r Hc Hl), (split_no_separator "." r Hr).
    destruct l; [contradiction|reflexivity].
  - intros r Hr.
    etransitivity; [exact (query_dotted this c "" r Hc eq_refl)|].
    rewrite (split_no_separator "." r Hr). reflexivity.
Qed.

Lemma query_resolution_witness :
  PrestApiClient.query sample_client (Some ".daily")
  = Returns {| owner := sample_client; schemaName := ".daily";
               tableName := Some "daily" |}.
Proof.
  exact (proj2 (proj2 (proj2 (proj2
           (query_resolution sample_client
              {| captured_authHeader := "Basic dXNlcjpwdw==" |} eq_refl))))
           "daily" eq_refl).
Defined.

(** X8.  Whenever [table] returns, the client is initialised and the
    identifier was a non-empty string; the accessor belongs to the
    client, its schema is not empty and has no [.], and its table is a
    string (never [undefined]) without [.]. *)
Theorem table_accessor_well_formed (this : PrestApiClient) (name : option string)
    (a : Accessor) :
  PrestApiClient.table this name = Returns a ->
  owner a = this
  /\ is_Some (httpClient this)
  /\ (exists id, name = Some id /\ id <> "")
  /\ schemaName a <> ""
  /\ JS.includes "." (schemaName a) = false
  /\ exists t, tableName a = Some t /\ JS.includes "." t = false.
Proof.
  intros H.
  destruct (httpClient this) as [c|] eqn:Hc;
    [|unfold PrestApiClient.table in H; rewrite Hc in H; discriminate].
  destruct name as [id|];
    [|unfold PrestApiClient.table in H; rewrite Hc in H; discriminate].
  destruct id as [|ch id];
    [unfold PrestApiClient.table in H; rewrite Hc in H; discriminate|].
  destruct (JS.includes "." (String ch id)) eqn:Hdot.
  - destruct (first_separator "." _ Hdot) as (l & r & Heq & Hl).
    rewrite Heq in H.
    change (l +:+ String "." r) with (l +:+ "." +:+ r) in H.
    rewrite (table_dotted this c Hc l r Hl) in H.
    destruct (split_first_piece "." r) as (piece & pieces & Hsplit & Hpiece).
    rewrite Hsplit in H. cbn [lookup list_lookup] in H.
    injection H as <-. cbn [owner schemaName tableName].
    split; [reflexivity|]. split; [eexists; reflexivity|].
    split; [eexists; split; [reflexivity|discriminate]|].
    destruct l as [|lc l]; cbn [String.eqb].
    + split; [discriminate|]. split; [reflexivity|].
      eexists; split; [reflexivity|exact Hpiece].
    + split; [discriminate|]. split; [exact Hl|].
      eexists; split; [reflexivity|exact Hpiece].
  - unfold PrestApiClient.table in H. rewrite Hc, Hdot in H.
    cbn [JS.truthy String.eqb negb] in H. injection H as <-.
    cbn [owner schemaName tableName].
    split; [reflexivity|]. split; [eexists; reflexivity|].
    split; [eexists; split; [reflexivity|discriminate]|].
    split; [discriminate|]. split; [reflexivity|].
    eexists; split; [reflexivity|exact Hdot].
Qed.

Lemma table_accessor_well_formed_witness :
  owner {| owner := sample_client; schemaName := "a"; tableName := Some "b" |}
  = sample_client
  /\ is_Some (httpClient sample_client)
  /\ (exists id, Some "a.b.c" = Some id /\ id <> "")
  /\ "a" <> ""
  /\ JS.includes "." "a" = false
  /\ exists t, Some "b" = Some t /\ JS.includes "." t = false.
Proof.
  exact (table_accessor_well_formed sample_client (Some "a.b.c")
           {| owner := sample_client; schemaName := "a"; tableName := Some "b" |}
           eq_refl).
Defined.

(** X9.  A client the constructor has built is initialised: on it
    [table] and [query] fail exactly for an absent or empty identifier,
    with [table name is required] and [script name is required], and
    never with [Client not initialized]. *)
Theorem constructed_client_accepts (opts : PrestApiClientOptions)
    (name : option string) :
  (forall e, PrestApiClient.table (new_PrestApiClient opts) name = Throws e ->
             e = JS.MkError "table name is required")
  /\ (forall e, PrestApiClient.query (new_PrestApiClient opts) name = Throws e ->
                e = JS.MkError "script name is required")
  /\ ((exists e, PrestApiClient.table (new_PrestApiClient opts) name = Throws e)
      <-> name = None \/ name = Some "")
  /\ ((exists e, PrestApiClient.query (new_PrestApiClient opts) name = Throws e)
      <-> name = None \/ name = Some "").
Proof.
  unfold PrestApiClient.table, PrestApiClient.query, new_PrestApiClient, createClient.
  cbn [httpClient].
  destruct name as [[|ch id]|]; cbn [JS.truthy String.eqb negb].
  - repeat split; try (intros e E; injection E as <-; reflexivity);
      try (intros _; right; reflexivity); intros _; eexists; reflexivity.
  - destruct (JS.includes "." (String ch id));
      repeat split; try (intros e E; discriminate);
      try (intros [e E]; discriminate); intros [E|E]; discriminate.
  - repeat split; try (intros e E; injection E as <-; reflexivity);
      try (intros _; left; reflexivity); intros _; eexists; reflexivity.
Qed.

Lemma constructed_client_accepts_witness :
  exists e,
    PrestApiClient.table (new_PrestApiClient sample_options) (Some "") = Throws e
    /\ e = JS.MkError "table name is required".
Proof.
  destruct (constructed_client_accepts sample_options (Some ""))
    as (Hmessage & _ & Hfails & _).
  destruct (proj2 Hfails (or_intror eq_refl)) as [e He].
  exists e. split; [exact He|]. apply Hmessage. exact He.
Defined.

(* ================================================================== *)
(** ** Escaping: what can and what cannot reach the URL unchanged *)
(* ================================================================== *)

Section Escaping.

Lemma escape_byte_safe (c : ascii) : url_safe (JS.escape_byte c) = true.
Proof.
  destruct c as [b0 b1 b2 b3 b4 b5 b6 b7].
  destruct b0, b1, b2, b3, b4, b5, b6, b7; reflexivity.
Qed.

Lemma url_safe_append (s t : string) :
  url_safe (s +:+ t) = url_safe s && url_safe t.
Proof.
  induction s as [|a s IH]; [reflexivity|].
  rewrite append_cons. cbn [url_safe]. rewrite IH. apply andb_assoc.
Qed.

Lemma percent_encode_safe (s : string) : url_safe (JS.percent_encode s) = true.
Proof.
  induction s as [|a s IH]; [reflexivity|].
  cbn [JS.percent_encode]. rewrite url_safe_append, escape_byte_safe, IH.
  reflexivity.
Qed.

(** A safe string holds no character that is reserved. *)
Lemma url_safe_excludes (d : ascii) (s : string) :
  JS.is_unreserved d = false -> d <> "%"%char ->
  url_safe s = true -> JS.includes d s = false.
Proof.
  intros Hd Hpercent. induction s as [|a s IH]; [reflexivity|].
  cbn [url_safe JS.includes]. intros H.
  apply andb_true_iff in H as [Ha Hs]. rewrite (IH Hs), orb_false_r.
  destruct (Ascii.eqb_spec a d) as [->|Hne]; [|reflexivity].
  rewrite Hd in Ha. cbn [orb] in Ha. apply Ascii.eqb_eq in Ha. contradiction.
Qed.

Lemma separator_reserved (d : ascii) :
  In d ["&"; "?"; "#"]%char -> JS.is_unreserved d = false /\ d <> "%"%char.
Proof.
  intros [<-|[<-|[<-|[]]]]; split; (reflexivity || discriminate).
Qed.

Lemma encoded_excludes (d : ascii) (s : string) :
  In d ["&"; "?"; "#"]%char -> JS.includes d (JS.percent_encode s) = false.
Proof.
  intros Hd. destruct (separator_reserved d Hd) as [Hres Hne].
  apply url_safe_excludes; [exact Hres|exact Hne|apply percent_encode_safe].
Qed.

Lemma includes_literal (d : ascii) (s : string) :
  In d ["&"; "?"; "#"]%char ->
  (JS.includes "&" s || JS.includes "?" s || JS.includes "#" s) = false ->
  JS.includes d s = false.
Proof.
  intros [<-|[<-|[<-|[]]]] H;
    apply orb_false_iff in H as [H H3]; apply orb_false_iff in H as [H1 H2];
    assumption.
Qed.

End Escaping.

(** Clears a goal [JS.includes d s = false] where [s] is put together
    from literals, escaped strings and strings known to be clean. *)
Ltac clean_clause Hd :=
  repeat rewrite includes_append;
  repeat rewrite (encoded_excludes _ _ Hd);
  repeat match goal with
         | H : JS.includes _ ?s = false |- context [JS.includes _ ?s] => rewrite H
         end;
  repeat match goal with
         | |- context [JS.includes ?d (String ?a ?s)] =>
             rewrite (includes_literal d (String a s) Hd eq_refl)
         end;
  reflexivity.

(** X10.  A builder call can bring a clause separator [&], a [?] or a
    [#] into the URL only through the strings it writes unescaped: the
    names of fields, functions, operators and tables, and the values of
    [in] and [notIn].  When none of these holds the character, no
    clause and no aggregate token the call adds holds it, whatever the
    other arguments are. *)
Theorem clause_integrity (call : BuilderCall) (d : ascii) (this : loc) (w : World)
    (q : ChainedQuery) :
  heap w !! this = Some q ->
  In d ["&"; "?"; "#"]%char ->
  Forall (fun part => JS.includes d part = false) (raw_parts call) ->
  exists q' added tokens,
    invoke call this w = (Returns this, store this q' w)
    /\ chainedOperations q' = chainedOperations q ++ added
    /\ sqlFunctions q' = sqlFunctions q ++ tokens
    /\ Forall (fun clause => JS.includes d clause = false) added
    /\ Forall (fun token => JS.includes d token = false) tokens.
Proof.
  intros H Hd Hraw.
  exists (apply_call q call), (clauses_of call), (aggregates_of call).
  split; [apply invoke_run; exact H|]. split; [reflexivity|]. split; [reflexivity|].
  destruct call; cbn [raw_parts] in Hraw;
    try match goal with
        | o : option _ |- _ => destruct o
        | j : JoinType |- _ => destruct j
        end;
    cbn [raw_parts JoinType_toString] in *;
    repeat match goal with
           | Hf : Forall _ (_ :: _) |- _ =>
               let H1 := fresh "Hpart" in
               let H2 := fresh "Hrest" in
               apply Forall_cons_iff in Hf as [H1 H2]
           end;
    cbn [clauses_of aggregates_of JoinType_toString]; unfold bound_clause, JS.stringify, JS.join,
      JS.encodeURIComponent; cbn [map String.concat fst snd];
    repeat match goal with
           | |- context [if ?b then _ else _] => destruct b
           end;
    cbn [app];
    (split; repeat constructor); try (clean_clause Hd).
  - rewrite !includes_append, Hpart.
    rewrite (includes_literal d "=$in." Hd eq_refl).
    rewrite (includes_concat d "," _ (includes_literal d "," Hd eq_refl) Hrest).
    reflexivity.
  - rewrite !includes_append, Hpart.
    rewrite (includes_literal d "=$nin." Hd eq_refl).
    rewrite (includes_concat d "," _ (includes_literal d "," Hd eq_refl) Hrest).
    reflexivity.
Qed.

Lemma clause_integrity_witness :
  exists q' added tokens,
    invoke (Clike "name" "R&D #1?") 0
      (sample_world answers_ok (sample_query Get [] []))
    = (Returns 0%nat, store 0 q' (sample_world answers_ok (sample_query Get [] [])))
    /\ chainedOperations q' = [] ++ added
    /\ sqlFunctions q' = [] ++ tokens
    /\ Forall (fun clause => JS.includes "&" clause = false) added
    /\ Forall (fun token => JS.includes "&" token = false) tokens.
Proof.
  refine (clause_integrity (Clike "name" "R&D #1?") "&" 0
            (sample_world answers_ok (sample_query Get [] []))
            (sample_query Get [] []) eq_refl _ _).
  - left. reflexivity.
  - repeat constructor.
Defined.

(* ================================================================== *)
(** ** Chains: the rendering mode, and queries side by side *)
(* ================================================================== *)

Section Chains.

Lemma fold_left_apply_app (calls1 calls2 : list BuilderCall) (q : ChainedQuery) :
  fold_left apply_call (calls1 ++ calls2) q
  = fold_left apply_call calls2 (fold_left apply_call calls1 q).
Proof. apply fold_left_app. Qed.

Lemma fold_keeps_renderer (calls : list BuilderCall) (q : ChainedQuery) :
  (forall arg, ~ In (Crenderer arg) calls) ->
  rendererArg (fold_left apply_call calls q) = rendererArg q.
Proof.
  revert q. induction calls as [|c calls IH]; intros q Hno; [reflexivity|].
  cbn [fold_left]. rewrite IH by (intros arg Hin; apply (Hno arg); right; exact Hin).
  destruct c; try reflexivity.
  exfalso. apply (Hno arg). left. reflexivity.
Qed.

End Chains.

(** X12.  In a chain of builder calls the last [renderer] call decides
    the rendering mode, wherever it stands and whatever was called
    before; without any [renderer] call the mode stays what it was. *)
Theorem last_renderer_wins (before after : list BuilderCall) (arg : Renderer)
    (this : loc) (w : World) (q : ChainedQuery) :
  heap w !! this = Some q ->
  (forall other, ~ In (Crenderer other) after) ->
  (exists q',
      chain (before ++ Crenderer arg :: after) this w
      = (Returns this, store this q' w)
      /\ rendererArg q' = arg)
  /\ (exists q',
        chain after this w = (Returns this, store this q' w)
        /\ rendererArg q' = rendererArg q).
Proof.
  intros H Hno. split.
  - eexists. split; [apply chain_run; exact H|].
    rewrite fold_left_apply_app. cbn [fold_left].
    rewrite (fold_keeps_renderer after _ Hno). reflexivity.
  - eexists. split; [apply chain_run; exact H|].
    apply fold_keeps_renderer. exact Hno.
Qed.

Lemma last_renderer_wins_witness :
  exists q',
    chain ([Crenderer Json; Cpage (JS.Finite 1)]
           ++ Crenderer Xml :: [Csum "price"; Cnull "sold_at"]) 0
      (sample_world answers_ok (sample_query Get [] []))
    = (Returns 0%nat, store 0 q' (sample_world answers_ok (sample_query Get [] [])))
    /\ rendererArg q' = Xml.
Proof.
  refine (proj1 (last_renderer_wins [Crenderer Json; Cpage (JS.Finite 1)]
                   [Csum "price"; Cnull "sold_at"] Xml 0
                   (sample_world answers_ok (sample_query Get [] []))
                   (sample_query Get [] []) eq_refl _)).
  intros other [E|[E|[]]]; discriminate.
Defined.

(** X13.  Each call of an operation of [table] creates a new query:
    two queries obtained from the same accessor are different objects,
    and builder calls on the first leave the second as it was created,
    so that executing the second requests the bare URL. *)
Theorem sibling_queries_independent (a : Accessor) (c : HttpClient)
    (calls : list BuilderCall) (w : World) :
  httpClient (owner a) = Some c ->
  fst ((q1 ← PrestApiClient.list a; q2 ← PrestApiClient.list a; mret (q1, q2)) w)
  = Returns (length (heap w), S (length (heap w)))
  /\ requests
       (trace (snd ((q1 ← PrestApiClient.list a;
                     q2 ← PrestApiClient.list a;
                     _ ← chain calls q1;
                     ChainedQuery.execute q2) w)))
     = requests (trace w)
       ++ [{| url := base_url (options (owner a)) +:+ "/" +:+ PrestApiClient.location a;
              method := "GET";
              headers := [("Authorization", captured_authHeader c)];
              payload := None |}].
Proof.
  intros Hc. unfold PrestApiClient.list. split.
  - erewrite bind_run by apply new_run.
    erewrite bind_run by apply new_run.
    cbn [heap fst]. rewrite length_app. cbn [length].
    rewrite Nat.add_1_r. reflexivity.
  - erewrite bind_run by apply new_run.
    erewrite bind_run by apply new_run.
    cbn [heap]. rewrite length_app. cbn [length]. rewrite Nat.add_1_r.
    set (base := base_url (options (owner a)) +:+ "/" +:+ PrestApiClient.location a).
    set (fresh := created (owner a) base Get BodyNull).
    assert (H1 : ((heap w ++ [fresh]) ++ [fresh]) !! length (heap w) = Some fresh).
    { rewrite <- app_assoc. apply list_lookup_middle. reflexivity. }
    assert (H2 : ((heap w ++ [fresh]) ++ [fresh]) !! S (length (heap w)) = Some fresh).
    { replace (S (length (heap w))) with (length (heap w ++ [fresh]))
        by (rewrite length_app; cbn [length]; lia).
      apply list_lookup_middle. reflexivity. }
    erewrite bind_run by (apply (chain_run calls _ _ fresh); cbn [heap]; exact H1).
    erewrite (execute_sends _ _ fresh c)
      by (first [ exact Hc
                | unfold store; cbn [heap];
                  rewrite list_lookup_insert_ne by lia; exact H2 ]).
    cbn [trace store]. reflexivity.
Qed.

Lemma sibling_queries_independent_witness :
  requests
    (trace (snd ((q1 ← PrestApiClient.list
                         {| owner := sample_client; schemaName := "public";
                            tableName := Some "products" |};
                  q2 ← PrestApiClient.list
                         {| owner := sample_client; schemaName := "public";
                            tableName := Some "products" |};
                  _ ← chain [Cpage (JS.Finite 3); Csum "price"] q1;
                  ChainedQuery.execute q2) (fresh_world answers_ok))))
  = [{| url := "http://localhost:3000/public/products"; method := "GET";
        headers := [("Authorization", "Basic dXNlcjpwdw==")]; payload := None |}].
Proof.
  exact (proj2 (sibling_queries_independent
                  {| owner := sample_client; schemaName := "public";
                     tableName := Some "products" |}
                  {| captured_authHeader := "Basic dXNlcjpwdw==" |}
                  [Cpage (JS.Finite 3); Csum "price"] (fresh_world answers_ok)
                  eq_refl)).
Defined.

(* ================================================================== *)
(** ** The first client: credentials, identifiers, requests, failures *)
(* ================================================================== *)

Section FirstClient.

Lemma ascii_only_append (s t : string) :
  ascii_only (s +:+ t) = ascii_only s && ascii_only t.
Proof.
  induction s as [|a s IH]; [reflexivity|].
  rewrite append_cons. cbn [ascii_only]. rewrite IH. apply andb_assoc.
Qed.

Lemma code_units_ascii (s : string) :
  ascii_only s = true -> Btoa.code_units s = Some (bytes_of s).
Proof.
  induction s as [|a s IH]; [reflexivity|].
  cbn [ascii_only Btoa.code_units bytes_of]. intros H.
  apply andb_true_iff in H as [Ha Hs]. rewrite Ha, (IH Hs). reflexivity.
Qed.

Lemma length_bytes_of (s : string) : length (bytes_of s) = String.length s.
Proof. induction s as [|a s IH]; cbn [bytes_of length String.length]; congruence. Qed.

Lemma string_length_append (s t : string) :
  String.length (s +:+ t) = (String.length s + String.length t)%nat.
Proof.
  induction s as [|a s IH]; [reflexivity|].
  rewrite append_cons. cbn [String.length]. rewrite IH. reflexivity.
Qed.

(** Four digits for every three bytes, the last group padded. *)
Lemma base64_length (bytes : list N) :
  String.length (Btoa.base64 bytes) = (4 * ((length bytes + 2) / 3))%nat.
Proof.
  assert (Hstep : forall n (l : list N), length l <= n ->
             String.length (Btoa.base64 l) = (4 * ((length l + 2) / 3))%nat).
  { intros n. induction n as [|n IH]; intros l Hl.
    - destruct l; [reflexivity|cbn [length] in Hl; lia].
    - destruct l as [|a [|b [|c rest]]]; try reflexivity.
      cbn [Btoa.base64 String.length length].
      rewrite IH by (cbn [length] in Hl; lia).
      replace (S (S (S (length rest))) + 2)%nat with (length rest + 2 + 1 * 3)%nat by lia.
      rewrite Nat.div_add by lia. lia. }
  apply (Hstep (length bytes)). lia.
Qed.

(** What the four operations have in common: one request, the answer
    read as JSON, every failure caught and wrapped. *)
Lemma guarded_json_run (req : FetchRequest) (failure label table : string) (w : World) :
  try_catch
    (response ← (response ← fetch req; require_ok failure response);
     Response_json response)
    (fun error =>
       throw (JS.MkError (label +:+ table +:+ ": " +:+ JS.message error))) w
  = match network w req with
    | Fails e =>
        (Throws (JS.MkError (label +:+ table +:+ ": " +:+ JS.message e)),
         observe [Fetch req] w)
    | Responds r =>
        if ok r then
          match parsed r with
          | Some v => (Returns (Structured v), observe [Fetch req; Decode AsJson] w)
          | None =>
              (Throws (JS.MkError (label +:+ table +:+ ": "
                                   +:+ "Unexpected token in JSON")),
               observe [Fetch req; Decode AsJson] w)
          end
        else
          (Throws (JS.MkError (label +:+ table +:+ ": " +:+ failure
                               +:+ statusText r)),
           observe [Fetch req] w)
    end.
Proof.
  unfold try_catch, mbind, M_bind, fetch, require_ok, Response_json, emit, throw,
    mret, M_ret, observe.
  cbn [heap trace network].
  destruct (network w req) as [r|e]; [|reflexivity].
  destruct (ok r); cbn [negb]; [|reflexivity].
  cbn [heap trace network].
  destruct (parsed r); unfold mbind, M_bind;
    cbn [heap trace network JS.message]; rewrite <- app_assoc; reflexivity.
Qed.

End FirstClient.

(** X14.  With a user name and a password of ASCII characters the
    first client is initialised, and its [Authorization] header is
    [Basic ] followed by the Base64 text of the bytes of
    [user:password], four digits for every three bytes.  When [btoa]
    rejects the credentials, the client stays uninitialised and every
    call of [Table] throws [Client not initialized], whatever the
    identifier. *)
Theorem first_client_credentials (opts : Client.PrestApiClientOptions) :
  (ascii_only (Client.user_name opts) = true ->
   ascii_only (Client.password opts) = true ->
   exists token,
     Client.client (Client.new opts)
     = Some {| Client.captured_authHeader := "Basic " +:+ token |}
     /\ token = Btoa.base64 (bytes_of (Client.user_name opts +:+ ":"
                                       +:+ Client.password opts))
     /\ String.length token
        = (4 * ((String.length (Client.user_name opts) + 1
                 + String.length (Client.password opts) + 2) / 3))%nat)
  /\ (Btoa.btoa (Client.user_name opts +:+ ":" +:+ Client.password opts) = None ->
      forall name,
        Client.Table (Client.new opts) name
        = Throws (JS.MkError "Client not initialized")).
Proof.
  split.
  - intros Hu Hp.
    assert (Hall : ascii_only (Client.user_name opts +:+ ":" +:+ Client.password opts)
                   = true).
    { rewrite !ascii_only_append, Hu, Hp. reflexivity. }
    eexists. split; [|split; [reflexivity|]].
    + unfold Client.new, Client.createClient, Btoa.btoa. cbn [Client.client].
      rewrite (code_units_ascii _ Hall). reflexivity.
    + rewrite base64_length, length_bytes_of, !string_length_append.
      cbn [String.length]. f_equal. f_equal. lia.
  - intros Hnone name.
    unfold Client.Table, Client.new, Client.createClient. cbn [Client.client].
    rewrite Hnone. reflexivity.
Qed.

Lemma first_client_credentials_witness :
  (exists token,
      Client.client (Client.new sample_credentials)
      = Some {| Client.captured_authHeader := "Basic " +:+ token |}
      /\ token = "dXNlcjpwdw=="
      /\ String.length token = 12%nat)
  /\ Client.Table
       (Client.new
          {| Client.base_url := "http://localhost:3000"; Client.user_name := "user";
             Client.password :=
               String (ascii_of_nat 208) (String (ascii_of_nat 191) "");
             Client.database := "shop" |})
       (Some "products")
     = Throws (JS.MkError "Client not initialized").
Proof.
  split.
  - exact (proj1 (first_client_credentials sample_credentials) eq_refl eq_refl).
  - exact (proj2 (first_client_credentials
                    {| Client.base_url := "http://localhost:3000";
                       Client.user_name := "user";
                       Client.password :=
                         String (ascii_of_nat 208) (String (ascii_of_nat 191) "");
                       Client.database := "shop" |}) eq_refl (Some "products")).
Defined.

(** X15.  [Table] of the first client, once initialised, rejects an
    absent or empty identifier with [Table name is required].  Without
    [.] the schema is [public]; in [schema.table] the schema is the part
    before the [.], also when that part is empty: there is no fallback
    to [public], and the URL then has an empty schema segment. *)
Theorem first_client_table (this : Client.PrestApiClient) (c : Client.HttpClient) :
  Client.client this = Some c ->
  Client.Table this None = Throws (JS.MkError "Table name is required")
  /\ Client.Table this (Some "") = Throws (JS.MkError "Table name is required")
  /\ (forall name : string,
        name <> "" -> JS.includes "." name = false ->
        Client.Table this (Some name)
        = Returns {| Client.owner := this; Client.http := c;
                     Client.schemaName := Some "public";
                     Client.tableName := Some name |})
  /\ (forall l r : string,
        JS.includes "." l = false -> JS.includes "." r = false ->
        Client.Table this (Some (l +:+ "." +:+ r))
        = Returns {| Client.owner := this; Client.http := c;
                     Client.schemaName := Some l; Client.tableName := Some r |})
  /\ (forall r : string,
        JS.includes "." r = false ->
        exists a,
          Client.Table this (Some ("." +:+ r)) = Returns a
          /\ Client.location a
             = Client.database (Client.options this) +:+ "//" +:+ r).
Proof.
  intros Hc.
  assert (Hdot : forall l r : string,
             JS.includes "." l = false -> JS.includes "." r = false ->
             Client.Table this (Some (l +:+ "." +:+ r))
             = Returns {| Client.owner := this; Client.http := c;
                          Client.schemaName := Some l;
                          Client.tableName := Some r |}).
  { intros l r Hl Hr. unfold Client.Table. rewrite Hc.
    change (l +:+ "." +:+ r) with (l +:+ String "." r).
    assert (Hne : l +:+ String "." r <> "") by (destruct l; discriminate).
    rewrite (truthy_nonempty _ Hne). cbn [negb].
    rewrite includes_append_separator. cbv zeta.
    rewrite (split_at_first "." l r Hl), (split_no_separator "." r Hr).
    reflexivity. }
  split; [|split; [|split; [|split]]].
  - unfold Client.Table. rewrite Hc. reflexivity.
  - unfold Client.Table. rewrite Hc. reflexivity.
  - intros name Hne Hno. unfold Client.Table.
    rewrite Hc, (truthy_nonempty name Hne), Hno. reflexivity.
  - exact Hdot.
  - intros r Hr. eexists. split; [exact (Hdot "" r eq_refl Hr)|].
    unfold Client.location.
    cbn [Client.schemaName Client.tableName Client.owner interpolate].
    reflexivity.
Qed.

Lemma first_client_table_witness :
  Client.Table (Client.new sample_credentials) (Some ".orders")
  = Returns {| Client.owner := Client.new sample_credentials;
               Client.http := {| Client.captured_authHeader := "Basic dXNlcjpwdw==" |};
               Client.schemaName := Some ""; Client.tableName := Some "orders" |}.
Proof.
  exact (proj1 (proj2 (proj2 (proj2
           (first_client_table (Client.new sample_credentials)
              {| Client.captured_authHeader := "Basic dXNlcjpwdw==" |} eq_refl))))
           "" "orders" eq_refl eq_refl).
Defined.

(** X16.  Each of the four operations of the first client sends exactly
    one request, with the [Authorization] header of the client.  [List]
    and [Show] are GET to [base/database/schema/table] and
    [base/show/database/schema/table]; [Insert] is a POST of the JSON
    text of the data to the URL of [List]; [Update] is a PUT to that
    URL followed by [?field=value], the field and the value as they
    print, with no escaping. *)
Theorem first_client_requests (a : Client.Accessor) (data : Body) (field : string)
    (value : JS.Value) (w : World) :
  let base := Client.base_url (Client.options (Client.owner a)) in
  let auth := ("Authorization", Client.captured_authHeader (Client.http a)) in
  let json := ("Content-Type", "application/json") in
  requests (trace (snd (Client.List a w)))
  = requests (trace w)
    ++ [{| url := base +:+ "/" +:+ Client.location a; method := "GET";
           headers := [auth]; payload := None |}]
  /\ requests (trace (snd (Client.Show a w)))
     = requests (trace w)
       ++ [{| url := base +:+ "/show/" +:+ Client.location a; method := "GET";
              headers := [auth]; payload := None |}]
  /\ requests (trace (snd (Client.Insert a data w)))
     = requests (trace w)
       ++ [{| url := base +:+ "/" +:+ Client.location a; method := "POST";
              headers := [json; auth]; payload := Some (JSON_stringify data) |}]
  /\ requests (trace (snd (Client.Update a field value data w)))
     = requests (trace w)
       ++ [{| url := base +:+ "/" +:+ Client.location a +:+ "?" +:+ field +:+ "="
                     +:+ JS.ToString value;
              method := "PUT";
              headers := [json; auth]; payload := Some (JSON_stringify data) |}].
Proof.
  cbv zeta.
  unfold Client.List, Client.Show, Client.Insert, Client.Update,
    Client.get, Client.post, Client.put.
  cbv zeta.
  repeat split; rewrite guarded_json_run;
    match goal with
    | |- context [network w ?r] => destruct (network w r) as [r0|e]
    end;
    try (destruct (ok r0); [destruct (parsed r0)|]);
    unfold observe; cbn [snd trace]; rewrite requests_app; cbn [requests];
    rewrite ?append_assoc; reflexivity.
Qed.

(** X17.  Whatever an operation of the first client rejects with is an
    error whose message names the operation and the table:
    [Failed to fetch data from], [Failed to show data for],
    [Failed to insert data into] or [Failed to update data in], then the
    table, a colon and the message of the cause.  This holds for a
    failed request, for a status that is no success and also for an
    answer that is not valid JSON, which is caught like the others. *)
Theorem first_client_failures (a : Client.Accessor) (data : Body) (field : string)
    (value : JS.Value) (w : World) :
  Forall
    (fun '(run, label) =>
       forall e : JS.Error,
         fst ((run : M Decoded) w) = Throws e ->
         exists cause,
           e = JS.MkError (label +:+ interpolate (Client.tableName a) +:+ ": "
                           +:+ cause))
    [(Client.List a, "Failed to fetch data from ");
     (Client.Show a, "Failed to show data for ");
     (Client.Insert a data, "Failed to insert data into ");
     (Client.Update a field value data, "Failed to update data in ")]
  /\ (forall r,
        network w {| url := Client.base_url (Client.options (Client.owner a))
                            +:+ "/" +:+ Client.location a;
                     method := "GET";
                     headers := [("Authorization",
                                  Client.captured_authHeader (Client.http a))];
                     payload := None |} = Responds r ->
        (ok r = false ->
         fst (Client.List a w)
         = Throws (JS.MkError ("Failed to fetch data from "
                               +:+ interpolate (Client.tableName a)
                               +:+ ": Failed to fetch data: " +:+ statusText r)))
        /\ (ok r = true -> parsed r = None ->
            exists cause,
              fst (Client.List a w)
              = Throws (JS.MkError ("Failed to fetch data from "
                                    +:+ interpolate (Client.tableName a)
                                    +:+ ": " +:+ cause)))
        /\ (ok r = true -> forall v, parsed r = Some v ->
            fst (Client.List a w) = Returns (Structured v))).
Proof.
  unfold Client.List, Client.Show, Client.Insert, Client.Update,
    Client.get, Client.post, Client.put.
  cbv zeta. split.
  - repeat constructor; intros e; rewrite guarded_json_run;
      match goal with
      | |- context [network w ?r] => destruct (network w r) as [r0|e0]
      end;
      try (destruct (ok r0); [destruct (parsed r0)|]);
      cbn [fst]; intros E; try discriminate;
      injection E as <-; eexists; reflexivity.
  - intros r Hnet. rewrite guarded_json_run, Hnet.
    split; [|split].
    + intros ->. reflexivity.
    + intros -> ->. eexists. reflexivity.
    + intros -> v ->. reflexivity.
Qed.

Lemma first_client_failures_witness :
  fst (Client.List
         {| Client.owner := Client.new sample_credentials;
            Client.http := {| Client.captured_authHeader := "Basic dXNlcjpwdw==" |};
            Client.schemaName := Some "public"; Client.tableName := Some "products" |}
         (fresh_world answers_not_found))
  = Throws (JS.MkError "Failed to fetch data from products: Failed to fetch data: Not Found").
Proof.
  exact (proj1 (proj2 (first_client_failures
                  {| Client.owner := Client.new sample_credentials;
                     Client.http :=
                       {| Client.captured_authHeader := "Basic dXNlcjpwdw==" |};
                     Client.schemaName := Some "public";
                     Client.tableName := Some "products" |}
                  BodyNull "" JS.VUndefined (fresh_world answers_not_found))
                  {| ok := false; statusText := "Not Found"; bytes := "";
                     parsed := None |} eq_refl) eq_refl).
Defined.

(* ================================================================== *)
(** ** Reading the query string back *)
(* ================================================================== *)

Section ReadingBack.

Lemma amp_all_app (l1 l2 : list string) :
  amp_all (l1 ++ l2) = amp_all l1 +:+ amp_all l2.
Proof.
  induction l1 as [|c l1 IH]; [reflexivity|].
  cbn [app amp_all]. rewrite IH, !append_assoc. reflexivity.
Qed.

(** Cutting at every [&] gives back the pieces that were joined. *)
Lemma split_amp_all (first : string) (pieces : list string) :
  JS.includes "&" first = false ->
  Forall (fun piece => JS.includes "&" piece = false) pieces ->
  JS.split "&" (first +:+ amp_all pieces) = first :: pieces.
Proof.
  intros Hfirst Hpieces. revert first Hfirst.
  induction Hpieces as [|piece pieces Hpiece _ IH]; intros first Hfirst.
  - cbn [amp_all]. rewrite append_nil_r. apply split_no_separator. exact Hfirst.
  - cbn [amp_all].
    change ("&" +:+ piece +:+ amp_all pieces)
      with (String "&" (piece +:+ amp_all pieces)).
    rewrite (split_at_first "&" first _ Hfirst), (IH piece Hpiece). reflexivity.
Qed.

End ReadingBack.

(** X18.  When no clause and no aggregate token of a query holds an
    [&] and there is at least one clause, the URL of [execute] is the
    base URL, a [?] and a query string which, cut at every [&], gives
    back the clauses in their order, followed by the one [_select]
    directive when there are aggregates. *)
Theorem query_string_reads_back (q : ChainedQuery) :
  chainedOperations q <> [] ->
  Forall (fun clause => JS.includes "&" clause = false) (chainedOperations q) ->
  Forall (fun token => JS.includes "&" token = false) (sqlFunctions q) ->
  exists qs,
    ChainedQuery.chainedUrl q = baseUrl q +:+ "?" +:+ qs
    /\ JS.split "&" qs
       = chainedOperations q
         ++ match sqlFunctions q with
            | [] => []
            | _ :: _ => ["_select=" +:+ String.concat "," (sqlFunctions q)]
            end.
Proof.
  intros Hne Hops Haggs. rewrite chainedUrl_eq.
  destruct (chainedOperations q) as [|first rest]; [contradiction|].
  inversion Hops as [|? ? Hfirst Hrest]; subst.
  set (directive := match sqlFunctions q with
                    | [] => []
                    | _ :: _ => ["_select=" +:+ String.concat "," (sqlFunctions q)]
                    end).
  assert (Hsuffix : select_suffix (sqlFunctions q) = amp_all directive).
  { unfold directive. destruct (sqlFunctions q); [reflexivity|].
    cbn [select_suffix amp_all]. rewrite append_nil_r. reflexivity. }
  assert (Hdirective : Forall (fun piece => JS.includes "&" piece = false) directive).
  { unfold directive. destruct (sqlFunctions q) as [|a l] eqn:E; constructor;
      [|constructor].
    rewrite includes_append.
    rewrite (includes_concat "&" "," (a :: l) eq_refl Haggs). reflexivity. }
  exists (first +:+ amp_all (rest ++ directive)). split.
  - cbn [query_string]. rewrite Hsuffix, amp_all_app, !append_assoc. reflexivity.
  - rewrite split_amp_all; [reflexivity|exact Hfirst|].
    apply Forall_app. split; assumption.
Qed.

Lemma query_string_reads_back_witness :
  exists qs,
    ChainedQuery.chainedUrl
      (sample_query Get ["sum:price"; "max:price"] ["_page=1"; "name=$like.a%26b"])
    = "http://localhost:3000/public/products" +:+ "?" +:+ qs
    /\ JS.split "&" qs
       = ["_page=1"; "name=$like.a%26b"; "_select=sum:price,max:price"].
Proof.
  refine (query_string_reads_back
            (sample_query Get ["sum:price"; "max:price"]
               ["_page=1"; "name=$like.a%26b"]) _ _ _).
  - discriminate.
  - repeat constructor.
  - repeat constructor.
Defined.
